(** * Smart Bookmark App: the client-side state model of [src/app/page.tsx]

    The page is one React component ([Home]).  Its logic is the mirror of the
    remote [bookmarks] table, the derived (filtered and sorted) view, and the
    three mutation handlers.  This file embeds that logic:

    - [Js]: the JavaScript built-ins the component calls ([trim], [includes],
      [Array.prototype.sort], truthiness);
    - [Host]: the built-ins whose result depends on the engine's Unicode and
      date tables ([toLowerCase], [localeCompare], [Date] parsing);
    - [Bookmark], [Payload], [applyPayload]: the mirror and the realtime
      reducer;
    - [derived_view]: the filter/sort effect;
    - [State], [Action], the handlers, and [World]/[step]: the component
      state, the event handlers with their [await] points, and the event
      loop that interleaves user input, realtime events and responses. *)

From Stdlib Require Import Bool List String Ascii ZArith Lia.
From Stdlib Require Import Sorted Permutation DecimalString.
Import ListNotations.

Local Open Scope string_scope.
Local Open Scope list_scope.

(* ================================================================== *)
(** * JavaScript built-ins *)
(* ================================================================== *)

(** A JavaScript string is modelled as a [string]: a sequence of characters,
    each [ascii] standing for one code unit below 256. *)

Module Js.

(** [ToBoolean] on a string: only the empty string is falsy. *)
Definition truthy (s : string) : bool :=
  match s with
  | EmptyString => false
  | String _ _ => true
  end.

(** [ToBoolean] on [string | null]: [null] and the empty string are falsy. *)
Definition truthy_opt (o : option string) : bool :=
  match o with
  | None => false
  | Some s => truthy s
  end.

(** [x || d] where [x] is an optional string and [d] a string. *)
Definition or_default (o : option string) (d : string) : string :=
  match o with
  | Some (String c s) => String c s
  | _ => d
  end.

(** White space and line terminators of ECMA-262 that are below 256:
    TAB, LF, VT, FF, CR, SP and NBSP. *)
Definition isWhiteSpace (c : ascii) : bool :=
  let n := nat_of_ascii c in
  (n =? 9)%nat || (n =? 10)%nat || (n =? 11)%nat || (n =? 12)%nat
  || (n =? 13)%nat || (n =? 32)%nat || (n =? 160)%nat.

Fixpoint trimStart (s : string) : string :=
  match s with
  | EmptyString => EmptyString
  | String c s' => if isWhiteSpace c then trimStart s' else s
  end.

Fixpoint trimEnd (s : string) : string :=
  match s with
  | EmptyString => EmptyString
  | String c s' =>
      match trimEnd s' with
      | EmptyString => if isWhiteSpace c then EmptyString else String c EmptyString
      | t => String c t
      end
  end.

(** [String.prototype.trim]. *)
Definition trim (s : string) : string := trimEnd (trimStart s).

(** [s.includes(q)]: [q] occurs in [s] at some position. *)
Fixpoint includes (s q : string) {struct s} : bool :=
  match s with
  | EmptyString => String.prefix q EmptyString
  | String _ s' => String.prefix q s || includes s' q
  end.

(** A JavaScript number as far as the component uses one: an integer
    (milliseconds since the epoch, or a difference of two such), or NaN
    ([None]).  Time values are integers of magnitude at most 8.64e15, so
    the sign of the double-precision difference of two of them is the sign
    of their exact difference. *)
Definition number := option Z.

Definition sub (x y : number) : number :=
  match x, y with
  | Some a, Some b => Some (a - b)%Z
  | _, _ => None
  end.

(** [SortCompare] of ECMA-262 for a user comparator: a NaN result counts
    as [+0]. *)
Definition SortCompare {A : Type} (comparefn : A -> A -> number) (x y : A) : Z :=
  match comparefn x y with
  | None => 0%Z
  | Some v => v
  end.

(** Insertion of [x] in front of the first element it does not follow. *)
Fixpoint insert {A : Type} (cmp : A -> A -> Z) (x : A) (l : list A) : list A :=
  match l with
  | [] => [x]
  | y :: l' => if (cmp x y <=? 0)%Z then x :: l else y :: insert cmp x l'
  end.

(** [Array.prototype.sort(comparefn)].  ECMA-262 (2019 and later) requires
    the sort to be stable, so for a consistent comparator the result is the
    one stable sorted arrangement, which this insertion sort computes.  For
    an inconsistent comparator the standard leaves the order to the
    implementation; the theorems below only use [sort] with a comparator
    that is consistent on the elements sorted. *)
Definition sort {A : Type} (comparefn : A -> A -> number) (l : list A) : list A :=
  fold_right (insert (SortCompare comparefn)) [] l.

Fixpoint dropChars (n : nat) (s : string) : string :=
  match n, s with
  | O, _ => s
  | S n', String _ s' => dropChars n' s'
  | S _, EmptyString => EmptyString
  end.

(** [s.replace(pattern, replacement)] with a string pattern: the first
    occurrence of [pattern], if any, gives way to [replacement].  The
    replacement is taken literally, which is what JavaScript does with one
    that holds no [$]. *)
Fixpoint replace (s pattern replacement : string) {struct s} : string :=
  if String.prefix pattern s
  then (replacement ++ dropChars (String.length pattern) s)%string
  else match s with
       | EmptyString => EmptyString
       | String c s' => String c (replace s' pattern replacement)
       end.

End Js.

(** The built-ins that depend on the engine's Unicode and date tables. *)
Class Host : Type := {
  (** [String.prototype.toLowerCase] *)
  toLowerCase : string -> string;
  (** [String.prototype.localeCompare]: negative, zero or positive *)
  localeCompare : string -> string -> Z;
  (** [new Date(s).getTime()]; [None] is NaN (an invalid date) *)
  getTime : string -> Js.number
}.

(** What ECMA-262 calls a consistent comparator on a set [S] of values,
    stated through the order [cmp a b <= 0]: the order is total and
    transitive on [S]. *)
Record consistent_on {A : Type} (S : A -> Prop) (cmp : A -> A -> Z) : Prop := {
  cmp_total : forall a b, S a -> S b -> (0 < cmp a b)%Z -> (cmp b a <= 0)%Z;
  cmp_trans : forall a b c, S a -> S b -> S c ->
      (cmp a b <= 0)%Z -> (cmp b c <= 0)%Z -> (cmp a c <= 0)%Z
}.

(* ================================================================== *)
(** * Data model *)
(* ================================================================== *)

Module Bookmark.
(** [type Bookmark]. *)
Record t : Type := mk {
  id : string;
  title : string;
  url : string;
  description : option string;
  tag : option string;
  favicon : option string;
  created_at : string
}.
End Bookmark.

Module User.
(** The part of the session's user object the component reads. *)
Record t : Type := mk {
  id : string;
  email : option string
}.
End User.

Definition TAG_OPTIONS : list string :=
  ["Design"; "Dev"; "Reading"; "Tools"; "Research"; "Misc"].

Inductive SortKey : Type := newest | oldest | alpha.

(* ================================================================== *)
(** * The realtime reducer *)
(* ================================================================== *)

(** The payload of a [postgres_changes] event: [payload.eventType] with
    [payload.new] (a row) or [payload.old.id]. *)
Inductive Payload : Type :=
| INSERT (new : Bookmark.t)
| DELETE (old_id : string)
| UPDATE (new : Bookmark.t).

(** [b.id === i] *)
Definition has_id (i : string) (b : Bookmark.t) : bool :=
  String.eqb (Bookmark.id b) i.

(** The function each branch of the realtime handler passes to
    [setBookmarks]. *)
Definition applyPayload (payload : Payload) (prev : list Bookmark.t) : list Bookmark.t :=
  match payload with
  | INSERT new => new :: prev
  | DELETE old_id => filter (fun b => negb (has_id old_id b)) prev
  | UPDATE new => map (fun b => if has_id (Bookmark.id new) b then new else b) prev
  end.

(* ================================================================== *)
(** * The derived view (the filter/sort effect) *)
(* ================================================================== *)

Section DerivedView.
Context {H : Host}.

(** [b.title.toLowerCase().includes(q) || b.url.toLowerCase().includes(q)
    || b.description?.toLowerCase().includes(q)]; the last disjunct is
    [undefined], hence falsy, when the note is absent. *)
Definition matchesSearch (q : string) (b : Bookmark.t) : bool :=
  Js.includes (toLowerCase (Bookmark.title b)) q
  || Js.includes (toLowerCase (Bookmark.url b)) q
  || match Bookmark.description b with
     | Some d => Js.includes (toLowerCase d) q
     | None => false
     end.

(** [b.tag === activeTag] *)
Definition hasTag (activeTag : string) (b : Bookmark.t) : bool :=
  match Bookmark.tag b with
  | Some t => String.eqb t activeTag
  | None => false
  end.

(** [if (search) { const q = search.toLowerCase(); result = result.filter(...) }] *)
Definition searchFilter (search : string) (result : list Bookmark.t) : list Bookmark.t :=
  if Js.truthy search
  then let q := toLowerCase search in filter (matchesSearch q) result
  else result.

(** [if (activeTag !== "All") result = result.filter((b) => b.tag === activeTag)] *)
Definition tagFilter (activeTag : string) (result : list Bookmark.t) : list Bookmark.t :=
  if negb (String.eqb activeTag "All")
  then filter (hasTag activeTag) result
  else result.

(** [(a, b) => new Date(a.created_at).getTime() - new Date(b.created_at).getTime()] *)
Definition byCreatedAt (a b : Bookmark.t) : Js.number :=
  Js.sub (getTime (Bookmark.created_at a)) (getTime (Bookmark.created_at b)).

(** [(a, b) => a.title.localeCompare(b.title)] *)
Definition byTitle (a b : Bookmark.t) : Js.number :=
  Some (localeCompare (Bookmark.title a) (Bookmark.title b)).

(** The two [sort] branches; ["newest"] takes neither. *)
Definition sortStage (sortBy : SortKey) (result : list Bookmark.t) : list Bookmark.t :=
  match sortBy with
  | oldest => Js.sort byCreatedAt result
  | alpha => Js.sort byTitle result
  | newest => result
  end.

(** The value the effect passes to [setFiltered].  [[...bookmarks]] is a
    fresh array, so the in-place [sort] never touches the mirror; lists
    are values, so the copy is the list itself. *)
Definition derived_view (bookmarks : list Bookmark.t) (search activeTag : string)
    (sortBy : SortKey) : list Bookmark.t :=
  let result := bookmarks in
  let result := searchFilter search result in
  let result := tagFilter activeTag result in
  sortStage sortBy result.

End DerivedView.

(* ================================================================== *)
(** * Component state *)
(* ================================================================== *)

(** The [useState] cells and the [userIdRef] ref of [Home] that its logic
    reads or writes ([viewMode] and [profileOpen] only select markup). *)
Record State : Type := mkState {
  user : option User.t;
  loading : bool;
  bookmarks : list Bookmark.t;
  filtered : list Bookmark.t;
  title : string;
  url : string;
  description : string;
  tag : string;
  search : string;
  activeTag : string;
  sortBy : SortKey;
  panelOpen : bool;
  deleteTarget : option string;
  toastMsg : option string;
  editId : option string;
  submitting : bool;
  userIdRef : option string
}.

(** The state at mount: the arguments of the [useState] and [useRef] calls. *)
Definition initialState : State :=
  {| user := None; loading := true; bookmarks := []; filtered := [];
     title := ""; url := ""; description := ""; tag := "";
     search := ""; activeTag := "All"; sortBy := newest;
     panelOpen := false; deleteTarget := None; toastMsg := None;
     editId := None; submitting := false; userIdRef := None |}.

(** The state setters, one per cell. *)
Definition setUser (v : option User.t) (s : State) : State :=
  {| user := v; loading := loading s; bookmarks := bookmarks s;
     filtered := filtered s; title := title s; url := url s;
     description := description s; tag := tag s; search := search s;
     activeTag := activeTag s; sortBy := sortBy s;
     panelOpen := panelOpen s; deleteTarget := deleteTarget s;
     toastMsg := toastMsg s; editId := editId s;
     submitting := submitting s; userIdRef := userIdRef s |}.

Definition setLoading (v : bool) (s : State) : State :=
  {| user := user s; loading := v; bookmarks := bookmarks s;
     filtered := filtered s; title := title s; url := url s;
     description := description s; tag := tag s; search := search s;
     activeTag := activeTag s; sortBy := sortBy s;
     panelOpen := panelOpen s; deleteTarget := deleteTarget s;
     toastMsg := toastMsg s; editId := editId s;
     submitting := submitting s; userIdRef := userIdRef s |}.

Definition setBookmarks (v : list Bookmark.t) (s : State) : State :=
  {| user := user s; loading := loading s; bookmarks := v;
     filtered := filtered s; title := title s; url := url s;
     description := description s; tag := tag s; search := search s;
     activeTag := activeTag s; sortBy := sortBy s;
     panelOpen := panelOpen s; deleteTarget := deleteTarget s;
     toastMsg := toastMsg s; editId := editId s;
     submitting := submitting s; userIdRef := userIdRef s |}.

Definition setFiltered (v : list Bookmark.t) (s : State) : State :=
  {| user := user s; loading := loading s; bookmarks := bookmarks s;
     filtered := v; title := title s; url := url s;
     description := description s; tag := tag s; search := search s;
     activeTag := activeTag s; sortBy := sortBy s;
     panelOpen := panelOpen s; deleteTarget := deleteTarget s;
     toastMsg := toastMsg s; editId := editId s;
     submitting := submitting s; userIdRef := userIdRef s |}.

Definition setTitle (v : string) (s : State) : State :=
  {| user := user s; loading := loading s; bookmarks := bookmarks s;
     filtered := filtered s; title := v; url := url s;
     description := description s; tag := tag s; search := search s;
     activeTag := activeTag s; sortBy := sortBy s;
     panelOpen := panelOpen s; deleteTarget := deleteTarget s;
     toastMsg := toastMsg s; editId := editId s;
     submitting := submitting s; userIdRef := userIdRef s |}.

Definition setUrl (v : string) (s : State) : State :=
  {| user := user s; loading := loading s; bookmarks := bookmarks s;
     filtered := filtered s; title := title s; url := v;
     description := description s; tag := tag s; search := search s;
     activeTag := activeTag s; sortBy := sortBy s;
     panelOpen := panelOpen s; deleteTarget := deleteTarget s;
     toastMsg := toastMsg s; editId := editId s;
     submitting := submitting s; userIdRef := userIdRef s |}.

Definition setDescription (v : string) (s : State) : State :=
  {| user := user s; loading := loading s; bookmarks := bookmarks s;
     filtered := filtered s; title := title s; url := url s;
     description := v; tag := tag s; search := search s;
     activeTag := activeTag s; sortBy := sortBy s;
     panelOpen := panelOpen s; deleteTarget := deleteTarget s;
     toastMsg := toastMsg s; editId := editId s;
     submitting := submitting s; userIdRef := userIdRef s |}.

Definition setTag (v : string) (s : State) : State :=
  {| user := user s; loading := loading s; bookmarks := bookmarks s;
     filtered := filtered s; title := title s; url := url s;
     description := description s; tag := v; search := search s;
     activeTag := activeTag s; sortBy := sortBy s;
     panelOpen := panelOpen s; deleteTarget := deleteTarget s;
     toastMsg := toastMsg s; editId := editId s;
     submitting := submitting s; userIdRef := userIdRef s |}.

Definition setSearch (v : string) (s : State) : State :=
  {| user := user s; loading := loading s; bookmarks := bookmarks s;
     filtered := filtered s; title := title s; url := url s;
     description := description s; tag := tag s; search := v;
     activeTag := activeTag s; sortBy := sortBy s;
     panelOpen := panelOpen s; deleteTarget := deleteTarget s;
     toastMsg := toastMsg s; editId := editId s;
     submitting := submitting s; userIdRef := userIdRef s |}.

Definition setActiveTag (v : string) (s : State) : State :=
  {| user := user s; loading := loading s; bookmarks := bookmarks s;
     filtered := filtered s; title := title s; url := url s;
     description := description s; tag := tag s; search := search s;
     activeTag := v; sortBy := sortBy s; panelOpen := panelOpen s;
     deleteTarget := deleteTarget s; toastMsg := toastMsg s;
     editId := editId s; submitting := submitting s;
     userIdRef := userIdRef s |}.

Definition setSortBy (v : SortKey) (s : State) : State :=
  {| user := user s; loading := loading s; bookmarks := bookmarks s;
     filtered := filtered s; title := title s; url := url s;
     description := description s; tag := tag s; search := search s;
     activeTag := activeTag s; sortBy := v; panelOpen := panelOpen s;
     deleteTarget := deleteTarget s; toastMsg := toastMsg s;
     editId := editId s; submitting := submitting s;
     userIdRef := userIdRef s |}.

Definition setPanelOpen (v : bool) (s : State) : State :=
  {| user := user s; loading := loading s; bookmarks := bookmarks s;
     filtered := filtered s; title := title s; url := url s;
     description := description s; tag := tag s; search := search s;
     activeTag := activeTag s; sortBy := sortBy s; panelOpen := v;
     deleteTarget := deleteTarget s; toastMsg := toastMsg s;
     editId := editId s; submitting := submitting s;
     userIdRef := userIdRef s |}.

Definition setDeleteTarget (v : option string) (s : State) : State :=
  {| user := user s; loading := loading s; bookmarks := bookmarks s;
     filtered := filtered s; title := title s; url := url s;
     description := description s; tag := tag s; search := search s;
     activeTag := activeTag s; sortBy := sortBy s;
     panelOpen := panelOpen s; deleteTarget := v; toastMsg := toastMsg s;
     editId := editId s; submitting := submitting s;
     userIdRef := userIdRef s |}.

Definition setToastMsg (v : option string) (s : State) : State :=
  {| user := user s; loading := loading s; bookmarks := bookmarks s;
     filtered := filtered s; title := title s; url := url s;
     description := description s; tag := tag s; search := search s;
     activeTag := activeTag s; sortBy := sortBy s;
     panelOpen := panelOpen s; deleteTarget := deleteTarget s;
     toastMsg := v; editId := editId s; submitting := submitting s;
     userIdRef := userIdRef s |}.

Definition setEditId (v : option string) (s : State) : State :=
  {| user := user s; loading := loading s; bookmarks := bookmarks s;
     filtered := filtered s; title := title s; url := url s;
     description := description s; tag := tag s; search := search s;
     activeTag := activeTag s; sortBy := sortBy s;
     panelOpen := panelOpen s; deleteTarget := deleteTarget s;
     toastMsg := toastMsg s; editId := v; submitting := submitting s;
     userIdRef := userIdRef s |}.

Definition setSubmitting (v : bool) (s : State) : State :=
  {| user := user s; loading := loading s; bookmarks := bookmarks s;
     filtered := filtered s; title := title s; url := url s;
     description := description s; tag := tag s; search := search s;
     activeTag := activeTag s; sortBy := sortBy s;
     panelOpen := panelOpen s; deleteTarget := deleteTarget s;
     toastMsg := toastMsg s; editId := editId s; submitting := v;
     userIdRef := userIdRef s |}.

Definition setUserIdRef (v : option string) (s : State) : State :=
  {| user := user s; loading := loading s; bookmarks := bookmarks s;
     filtered := filtered s; title := title s; url := url s;
     description := description s; tag := tag s; search := search s;
     activeTag := activeTag s; sortBy := sortBy s;
     panelOpen := panelOpen s; deleteTarget := deleteTarget s;
     toastMsg := toastMsg s; editId := editId s;
     submitting := submitting s; userIdRef := v |}.

(** [setBookmarks((prev) => f(prev))], the updater form. *)
Definition setBookmarksWith (f : list Bookmark.t -> list Bookmark.t) (s : State) : State :=
  setBookmarks (f (bookmarks s)) s.

(* ================================================================== *)
(** * Remote calls and handlers *)
(* ================================================================== *)

Module Fields.
(** The object literal [{ title, url, description, tag }] of a write. *)
Record t : Type := mk {
  title : string;
  url : string;
  description : string;
  tag : string
}.
End Fields.

(** The four queries the component builds on [supabase.from("bookmarks")]. *)
Inductive Request : Type :=
| Select (order_column : string) (ascending : bool)
| Insert (values : Fields.t) (user_id : string)
| Update (values : Fields.t) (eq_id : string)
| Delete (eq_id : string).

(** What a query resolves to: [{ data, error }].  The client never rejects;
    a failure is a non-null [error]. *)
Record Response : Type := mkResponse {
  data : option (list Bookmark.t);
  error : option string
}.

(** The code after each [await], named after the function it belongs to. *)
Inductive Cont : Type :=
| fetchBookmarks_k
| handleSubmit_update_k
| handleSubmit_insert_k
| handleDelete_k.

(** What a handler asks of the outside: a remote call whose result resumes
    [k], or the [setTimeout] of [toast]. *)
Inductive Effect : Type :=
| Remote (req : Request) (k : Cont)
| SetTimeout.

(** A handler run: the state updates it queues, applied in order, and the
    effects it starts. *)
Definition Action : Type := State -> State * list Effect.

Definition skip : Action := fun s => (s, []).

Definition seq (a b : Action) : Action :=
  fun s =>
    let (s1, e1) := a s in
    let (s2, e2) := b s1 in
    (s2, e1 ++ e2).

Notation "a ;; b" := (seq a b) (at level 61, right associativity).

Definition set (f : State -> State) : Action := fun s => (f s, []).

Definition await (req : Request) (k : Cont) : Action := fun s => (s, [Remote req k]).

(** [toast]: show the message and arm the 3000 ms timer that clears it.
    Messages are display text only; a character outside ASCII stands in the
    literal as its UTF-8 bytes. *)
Definition toast (msg : string) : Action :=
  set (setToastMsg (Some msg)) ;; (fun s => (s, [SetTimeout])).

(** [fetchBookmarks], up to its [await]. *)
Definition fetchBookmarks : Action :=
  fun s =>
    if negb (Js.truthy_opt (userIdRef s)) then skip s
    else await (Select "created_at" false) fetchBookmarks_k s.

(** [if (!error) setBookmarks(data || [])] *)
Definition fetchBookmarks_resume (r : Response) : Action :=
  match error r with
  | None => set (setBookmarks (match data r with Some rows => rows | None => [] end))
  | Some _ => skip
  end.

Definition resetForm : Action :=
  set (setTitle "") ;; set (setUrl "") ;; set (setDescription "") ;;
  set (setTag "") ;; set (setEditId None).

Definition openEdit (bm : Bookmark.t) : Action :=
  set (setTitle (Bookmark.title bm)) ;; set (setUrl (Bookmark.url bm)) ;;
  set (setDescription (Js.or_default (Bookmark.description bm) "")) ;;
  set (setTag (Js.or_default (Bookmark.tag bm) "")) ;;
  set (setEditId (Some (Bookmark.id bm))) ;; set (setPanelOpen true).

(** [{ title, url, description, tag }] as the closure of render [r] sees
    the four cells. *)
Definition formFields (r : State) : Fields.t :=
  {| Fields.title := title r; Fields.url := url r;
     Fields.description := description r; Fields.tag := tag r |}.

(** [!title.trim() || !url.trim()] *)
Definition invalidForm (r : State) : bool :=
  negb (Js.truthy (Js.trim (title r))) || negb (Js.truthy (Js.trim (url r))).

(** [handleSubmit], up to its [await].  [r] is the render whose closure
    runs: the handler reads [title], [url], [description], [tag], [editId]
    and [user] from it.  [user.id] throws when [user] is null, which ends the
    function after [setSubmitting(true)]; no render shows the form then. *)
Definition handleSubmit (r : State) : Action :=
  if invalidForm r then skip
  else
    set (setSubmitting true) ;;
    if Js.truthy_opt (editId r)
    then match editId r with
         | Some i => await (Update (formFields r) i) handleSubmit_update_k
         | None => skip
         end
    else match user r with
         | Some u => await (Insert (formFields r) (User.id u)) handleSubmit_insert_k
         | None => skip
         end.

(** The rest of the update branch of [handleSubmit]. *)
Definition handleSubmit_update_resume (r : Response) : Action :=
  match error r with
  | None => toast "Bookmark updated ✦" ;; resetForm ;; set (setPanelOpen false)
  | Some _ => toast "Failed to update — try again"
  end ;;
  set (setSubmitting false).

(** The rest of the insert branch of [handleSubmit]. *)
Definition handleSubmit_insert_resume (r : Response) : Action :=
  match error r with
  | None => toast "Bookmark saved ✦" ;; resetForm ;; set (setPanelOpen false)
  | Some _ => toast "Failed to save — try again"
  end ;;
  set (setSubmitting false).

(** [handleDelete(id)], up to its [await]. *)
Definition handleDelete (id : string) : Action :=
  set (setBookmarksWith (filter (fun b => negb (has_id id b)))) ;;
  set (setDeleteTarget None) ;;
  toast "Bookmark deleted" ;;
  await (Delete id) handleDelete_k.

(** [if (error) { toast("Delete failed..."); fetchBookmarks(); }] *)
Definition handleDelete_resume (r : Response) : Action :=
  match error r with
  | Some _ => toast "Delete failed — restoring..." ;; fetchBookmarks
  | None => skip
  end.

Definition resume (k : Cont) (r : Response) : Action :=
  match k with
  | fetchBookmarks_k => fetchBookmarks_resume r
  | handleSubmit_update_k => handleSubmit_update_resume r
  | handleSubmit_insert_k => handleSubmit_insert_resume r
  | handleDelete_k => handleDelete_resume r
  end.

(** [disabled={!title.trim() || !url.trim() || submitting}] on the submit
    button. *)
Definition submitDisabled (r : State) : bool :=
  invalidForm r || submitting r.

(** [allTags] *)
Definition allTags (r : State) : list string :=
  "All" :: filter (fun t => existsb (fun b => match Bookmark.tag b with
                                             | Some t' => String.eqb t' t
                                             | None => false
                                             end) (bookmarks r)) TAG_OPTIONS.

(* ================================================================== *)
(** * The event loop *)
(* ================================================================== *)

(** The component together with what surrounds it: the calls awaiting a
    response (each with the code it resumes), the armed toast timers, the
    realtime channel (subscribed with filter [user_id=eq.<id>], or absent)
    and the log of every request sent so far. *)
Record World : Type := mkWorld {
  ui : State;
  inflight : list (Request * Cont);
  timers : nat;
  channel : option string;
  sent : list Request
}.

Definition initialWorld : World :=
  {| ui := initialState; inflight := []; timers := 0; channel := None; sent := [] |}.

(** Everything that can wake the event loop: the two authentication
    callbacks, a realtime event, the answer to the [n]-th call in flight,
    a toast timer, and the user's input on the elements of the page.  (The
    sign-in and sign-out buttons leave the page; the view-mode and profile
    buttons only select markup.) *)
Inductive Event : Type :=
| GetSessionResolved (session_user : option User.t)
| AuthStateChange (session_user : option User.t)
| Postgres (payload : Payload)
| Settle (n : nat) (r : Response)
| TimerFires
| ChangeSearch (v : string)
| ClickActiveTag (t : string)
| ChangeSortBy (k : SortKey)
| ClickAdd
| ClickAddFirst
| ClickEdit (bm : Bookmark.t)
| ClickClosePanel
| ChangeTitle (v : string)
| ChangeUrl (v : string)
| KeyDownUrl (key : string)
| ChangeDescription (v : string)
| ClickTag (t : string)
| ClickSubmit
| ClickDeleteIcon (id : string)
| ClickCancelDelete
| ClickConfirmDelete.

Definition startEffect (e : Effect) (w : World) : World :=
  match e with
  | Remote req k =>
      {| ui := ui w; inflight := inflight w ++ [(req, k)]; timers := timers w;
         channel := channel w; sent := sent w ++ [req] |}
  | SetTimeout =>
      {| ui := ui w; inflight := inflight w; timers := S (timers w);
         channel := channel w; sent := sent w |}
  end.

Definition withUi (s : State) (w : World) : World :=
  {| ui := s; inflight := inflight w; timers := timers w;
     channel := channel w; sent := sent w |}.

Definition withChannel (c : option string) (w : World) : World :=
  {| ui := ui w; inflight := inflight w; timers := timers w;
     channel := c; sent := sent w |}.

Definition withInflight (calls : list (Request * Cont)) (w : World) : World :=
  {| ui := ui w; inflight := calls; timers := timers w;
     channel := channel w; sent := sent w |}.

Definition withTimers (n : nat) (w : World) : World :=
  {| ui := ui w; inflight := inflight w; timers := n;
     channel := channel w; sent := sent w |}.

(** Run a handler on the current state and start its effects. *)
Definition run (a : Action) (w : World) : World :=
  let (s, effects) := a (ui w) in
  fold_left (fun w' e => startEffect e w') effects (withUi s w).

Fixpoint removeNth {A : Type} (n : nat) (l : list A) : list A :=
  match n, l with
  | _, [] => []
  | O, _ :: l' => l'
  | S n', x :: l' => x :: removeNth n' l'
  end.

Definition string_opt_eqb (a b : option string) : bool :=
  match a, b with
  | Some x, Some y => String.eqb x y
  | None, None => true
  | _, _ => false
  end.

Definition Bookmark_eqb (a b : Bookmark.t) : bool :=
  String.eqb (Bookmark.id a) (Bookmark.id b)
  && String.eqb (Bookmark.title a) (Bookmark.title b)
  && String.eqb (Bookmark.url a) (Bookmark.url b)
  && string_opt_eqb (Bookmark.description a) (Bookmark.description b)
  && string_opt_eqb (Bookmark.tag a) (Bookmark.tag b)
  && string_opt_eqb (Bookmark.favicon a) (Bookmark.favicon b)
  && String.eqb (Bookmark.created_at a) (Bookmark.created_at b).

Section EventLoop.
Context {H : Host}.

(** The filter/sort effect: it runs after a render in which [bookmarks],
    [search], [activeTag] or [sortBy] changed; its result depends on these
    four only, so running it after every render stores the same value. *)
Definition filterSortEffect : Action :=
  fun s => set (setFiltered (derived_view (bookmarks s) (search s) (activeTag s) (sortBy s))) s.

(** The effect on [[user, fetchBookmarks]], run when [setUser] stored a
    different value: first the cleanup of its previous run
    ([removeChannel]), then, if there is a user, [userIdRef.current =
    user.id], [fetchBookmarks()] and the subscription. *)
Definition userEffect (w : World) : World :=
  let w := withChannel None w in
  match user (ui w) with
  | None => w
  | Some u =>
      let w := run (set (setUserIdRef (Some (User.id u))) ;; fetchBookmarks) w in
      withChannel (Some (User.id u)) w
  end.

(** The render after [setUser(session?.user ?? null)]: [null] stored over
    [null] is no change; a session's user is a fresh object, so any other
    store changes [user] and the effect runs. *)
Definition afterSetUser (before : option User.t) (w : World) : World :=
  match before, user (ui w) with
  | None, None => w
  | _, _ => userEffect w
  end.

(** What the current render shows. *)
Definition showsMain (r : State) : bool :=
  negb (loading r) &&
  match user r with Some _ => true | None => false end.

Definition showsPanel (r : State) : bool := showsMain r && panelOpen r.

Definition showsDeleteConfirm (r : State) : bool :=
  showsMain r && Js.truthy_opt (deleteTarget r).

(** The handler an event runs in the current render [r], or [None] when
    the render has no element that could raise the event. *)
Definition dispatch (e : Event) (w : World) : option World :=
  let r := ui w in
  match e with
  | GetSessionResolved u =>
      Some (afterSetUser (user r) (run (set (setUser u) ;; set (setLoading false)) w))
  | AuthStateChange u =>
      Some (afterSetUser (user r) (run (set (setUser u)) w))
  | Postgres payload =>
      match channel w with
      | Some _ => Some (run (set (setBookmarksWith (applyPayload payload))) w)
      | None => None
      end
  | Settle n resp =>
      match nth_error (inflight w) n with
      | Some (_, k) =>
          Some (run (resume k resp) (withInflight (removeNth n (inflight w)) w))
      | None => None
      end
  | TimerFires =>
      match timers w with
      | S n => Some (run (set (setToastMsg None)) (withTimers n w))
      | O => None
      end
  | ChangeSearch v =>
      if showsMain r then Some (run (set (setSearch v)) w) else None
  | ClickActiveTag t =>
      if showsMain r && existsb (String.eqb t) (allTags r)
      then Some (run (set (setActiveTag t)) w) else None
  | ChangeSortBy k =>
      if showsMain r then Some (run (set (setSortBy k)) w) else None
  | ClickAdd =>
      if showsMain r then Some (run (resetForm ;; set (setPanelOpen true)) w) else None
  | ClickAddFirst =>
      if showsMain r
         && match filtered r with [] => true | _ => false end
         && negb (Js.truthy (search r)) && String.eqb (activeTag r) "All"
      then Some (run (set (setPanelOpen true)) w) else None
  | ClickEdit bm =>
      if showsMain r && existsb (Bookmark_eqb bm) (filtered r)
      then Some (run (openEdit bm) w) else None
  | ClickClosePanel =>
      if showsPanel r then Some (run (set (setPanelOpen false) ;; resetForm) w) else None
  | ChangeTitle v =>
      if showsPanel r then Some (run (set (setTitle v)) w) else None
  | ChangeUrl v =>
      if showsPanel r then Some (run (set (setUrl v)) w) else None
  | KeyDownUrl key =>
      if showsPanel r
      then Some (if String.eqb key "Enter" then run (handleSubmit r) w else w)
      else None
  | ChangeDescription v =>
      if showsPanel r then Some (run (set (setDescription v)) w) else None
  | ClickTag t =>
      if showsPanel r && existsb (String.eqb t) TAG_OPTIONS
      then Some (run (set (setTag (if String.eqb (tag r) t then "" else t))) w)
      else None
  | ClickSubmit =>
      if showsPanel r && negb (submitDisabled r)
      then Some (run (handleSubmit r) w) else None
  | ClickDeleteIcon id =>
      if showsMain r && existsb (has_id id) (filtered r)
      then Some (run (set (setDeleteTarget (Some id))) w) else None
  | ClickCancelDelete =>
      if showsDeleteConfirm r then Some (run (set (setDeleteTarget None)) w) else None
  | ClickConfirmDelete =>
      match deleteTarget r with
      | Some id => if showsDeleteConfirm r then Some (run (handleDelete id) w) else None
      | None => None
      end
  end.

(** One turn of the event loop: the handler, then the render and its
    filter/sort effect. *)
Definition step (w : World) (e : Event) : option World :=
  match dispatch e w with
  | Some w' => Some (run filterSortEffect w')
  | None => None
  end.

(** A sequence of turns; [None] as soon as an event cannot occur. *)
Fixpoint steps (w : World) (es : list Event) : option World :=
  match es with
  | [] => Some w
  | e :: es' =>
      match step w e with
      | Some w' => steps w' es'
      | None => None
      end
  end.

End EventLoop.

(* ================================================================== *)
(** * A reference host *)
(* ================================================================== *)

(** A host to run the model on concrete data: ASCII case folding, code-unit
    order as the collation, and UTC timestamps written
    [YYYY-MM-DDTHH:MM:SSZ]. *)

Definition ref_lower (c : ascii) : ascii :=
  let n := nat_of_ascii c in
  if (65 <=? n)%nat && (n <=? 90)%nat then ascii_of_nat (n + 32) else c.

Fixpoint ref_toLowerCase (s : string) : string :=
  match s with
  | EmptyString => EmptyString
  | String c s' => String (ref_lower c) (ref_toLowerCase s')
  end.

Definition ref_localeCompare (a b : string) : Z :=
  match String.compare a b with
  | Lt => (-1)%Z
  | Eq => 0%Z
  | Gt => 1%Z
  end.

Fixpoint decimal (acc : Z) (s : string) : option Z :=
  match s with
  | EmptyString => Some acc
  | String c s' =>
      let n := Z.of_nat (nat_of_ascii c) in
      if (48 <=? n)%Z && (n <=? 57)%Z then decimal (10 * acc + (n - 48))%Z s' else None
  end.

(** Days from 1970-01-01 to the given date of the proleptic Gregorian
    calendar. *)
Definition days_from_civil (y m d : Z) : Z :=
  let y' := if (m <=? 2)%Z then (y - 1)%Z else y in
  let era := (y' / 400)%Z in
  let yoe := (y' - era * 400)%Z in
  let mp := if (m <=? 2)%Z then (m + 9)%Z else (m - 3)%Z in
  let doy := ((153 * mp + 2) / 5 + d - 1)%Z in
  let doe := (yoe * 365 + yoe / 4 - yoe / 100 + doy)%Z in
  (era * 146097 + doe - 719468)%Z.

Definition ref_getTime (s : string) : Js.number :=
  if (String.length s =? 20)%nat
     && String.eqb (substring 4 1 s) "-" && String.eqb (substring 7 1 s) "-"
     && String.eqb (substring 10 1 s) "T" && String.eqb (substring 13 1 s) ":"
     && String.eqb (substring 16 1 s) ":" && String.eqb (substring 19 1 s) "Z"
  then
    match decimal 0 (substring 0 4 s), decimal 0 (substring 5 2 s),
          decimal 0 (substring 8 2 s), decimal 0 (substring 11 2 s),
          decimal 0 (substring 14 2 s), decimal 0 (substring 17 2 s) with
    | Some y, Some mo, Some d, Some h, Some mi, Some se =>
        if (1 <=? mo)%Z && (mo <=? 12)%Z && (1 <=? d)%Z && (d <=? 31)%Z
           && (h <=? 23)%Z && (mi <=? 59)%Z && (se <=? 59)%Z
        then Some ((((days_from_civil y mo d * 24 + h) * 60 + mi) * 60 + se) * 1000)%Z
        else None
    | _, _, _, _, _, _ => None
    end
  else None.

#[local] Instance RefHost : Host := {|
  toLowerCase := ref_toLowerCase;
  localeCompare := ref_localeCompare;
  getTime := ref_getTime
|}.

(** The two records of the specification's end-to-end scenarios, and a
    third one created last. *)
Definition bm1 : Bookmark.t :=
  {| Bookmark.id := "1"; Bookmark.title := "A"; Bookmark.url := "https://a.example";
     Bookmark.description := None; Bookmark.tag := Some "Dev";
     Bookmark.favicon := None; Bookmark.created_at := "2024-01-01T00:00:00Z" |}.

Definition bm2 : Bookmark.t :=
  {| Bookmark.id := "2"; Bookmark.title := "B"; Bookmark.url := "https://b.example";
     Bookmark.description := Some "Colour wheel"; Bookmark.tag := Some "Design";
     Bookmark.favicon := None; Bookmark.created_at := "2024-01-02T00:00:00Z" |}.

Definition bm3 : Bookmark.t :=
  {| Bookmark.id := "3"; Bookmark.title := "C"; Bookmark.url := "https://c.example";
     Bookmark.description := None; Bookmark.tag := None;
     Bookmark.favicon := None; Bookmark.created_at := "2024-01-03T00:00:00Z" |}.

Definition alice : User.t := {| User.id := "u-1"; User.email := Some "alice@example.com" |}.

(** The world of a signed-in session whose mirror is [m]: the user effect
    has run (the ref is set, the channel subscribed) and the first fetch has
    been answered. *)
Definition mirrorWorld (m : list Bookmark.t) : World :=
  {| ui := setUserIdRef (Some (User.id alice))
             (setFiltered m (setBookmarks m (setLoading false
                (setUser (Some alice) initialState))));
     inflight := []; timers := 0; channel := Some (User.id alice);
     sent := [Select "created_at" false] |}.

(** The same session with the delete confirmation open on record [x]. *)
Definition confirmWorld (m : list Bookmark.t) (x : string) : World :=
  withUi (setDeleteTarget (Some x) (ui (mirrorWorld m))) (mirrorWorld m).

(** The same session with the creation panel open and the title and URL
    fields holding [t] and [u]. *)
Definition formWorld (m : list Bookmark.t) (t u : string) : World :=
  withUi (setUrl u (setTitle t (setPanelOpen true (ui (mirrorWorld m))))) (mirrorWorld m).

(* ================================================================== *)
(** * Vocabulary of the properties *)
(* ================================================================== *)

Section Vocabulary.
Context {H : Host}.

(** A record passes both [filter] calls of the effect, each under its
    guard. *)
Definition passesFilters (search activeTag : string) (b : Bookmark.t) : bool :=
  (negb (Js.truthy search) || matchesSearch (toLowerCase search) b)
  && (String.eqb activeTag "All" || hasTag activeTag b).

(** The specification's wording, "contains Q as a case-insensitive
    substring": the case-folded text has the case-folded query as a
    contiguous part. *)
Definition spec_containsIgnoringCase (text q : string) : Prop :=
  exists pre post, toLowerCase text = (pre ++ toLowerCase q ++ post)%string.

(** The specification's wording: title, URL or note contains the query;
    every record when the query is empty. *)
Definition spec_matchesQuery (q : string) (b : Bookmark.t) : Prop :=
  q = ""
  \/ spec_containsIgnoringCase (Bookmark.title b) q
  \/ spec_containsIgnoringCase (Bookmark.url b) q
  \/ exists note, Bookmark.description b = Some note /\ spec_containsIgnoringCase note q.

(** The specification's wording: the tag equals [t], or [t] is the
    sentinel. *)
Definition spec_matchesTag (t : string) (b : Bookmark.t) : Prop :=
  t = "All" \/ Bookmark.tag b = Some t.

Definition spec_retained (q t : string) (b : Bookmark.t) : Prop :=
  spec_matchesQuery q b /\ spec_matchesTag t b.

(** [a] is not after [b] under locale comparison of titles. *)
Definition titleNotAfter (a b : Bookmark.t) : Prop :=
  (localeCompare (Bookmark.title a) (Bookmark.title b) <= 0)%Z.

(** Both creation timestamps are dates and [a]'s is not later. *)
Definition createdNotAfter (a b : Bookmark.t) : Prop :=
  match getTime (Bookmark.created_at a), getTime (Bookmark.created_at b) with
  | Some ta, Some tb => (ta <= tb)%Z
  | _, _ => False
  end.

(** The creation timestamp parses as a date. *)
Definition hasValidDate (b : Bookmark.t) : Prop :=
  getTime (Bookmark.created_at b) <> None.

End Vocabulary.

(** The write a request carries, if it is a write. *)
Definition writtenFields (req : Request) : option Fields.t :=
  match req with
  | Insert values _ => Some values
  | Update values _ => Some values
  | Select _ _ => None
  | Delete _ => None
  end.

Definition isWrite (req : Request) : bool :=
  match writtenFields req with
  | Some _ => true
  | None => false
  end.

(** The query of [fetchBookmarks]. *)
Definition fetchQuery : Request := Select "created_at" false.

(** A response without error carrying [rows], and a failed one. *)
Definition succeeded (rows : list Bookmark.t) : Response :=
  {| data := Some rows; error := None |}.

Definition failed (message : string) : Response :=
  {| data := None; error := Some message |}.

(** The worlds the event loop can be in. *)
Inductive reachable {H : Host} : World -> Prop :=
| reachable_initial : reachable initialWorld
| reachable_step (w w' : World) (e : Event) :
    reachable w -> step w e = Some w' -> reachable w'.

(* ================================================================== *)
(** * The helpers of the markup *)
(* ================================================================== *)

(** The browser built-ins the helpers call. *)
Class Browser : Type := {
  (** [new URL(url).hostname]; [None] when the constructor throws *)
  hostname : string -> option string;
  (** [new Date(dateStr).toLocaleDateString()] *)
  toLocaleDateString : string -> string
}.

(** Template-literal conversion of an integer-valued number. *)
Definition numberToString (z : Z) : string := NilZero.string_of_int (Z.to_int z).

Section MarkupHelpers.
Context {H : Host} {B : Browser}.

(** [function getFavicon(url)]; [None] is [null]. *)
Definition getFavicon (url : string) : option string :=
  match hostname url with
  | Some domain =>
      Some ("https://www.google.com/s2/favicons?domain=" ++ domain ++ "&sz=64")%string
  | None => None
  end.

(** The [domain] of [BookmarkRow]: [""], overwritten inside the [try] by
    [new URL(bm.url).hostname.replace("www.", "")]. *)
Definition rowDomain (url : string) : string :=
  match hostname url with
  | Some h => Js.replace h "www." ""
  | None => ""
  end.

(** [function timeAgo(dateStr)], with [Date.now()] passed as [now].  With
    an invalid date [diff] is NaN, every comparison is false and the last
    [return] is taken.  [Math.floor] of the quotient is the floor division
    of the integers (exact in double precision for a [diff] of a few
    thousand years). *)
Definition timeAgo (now : Z) (dateStr : string) : string :=
  match getTime dateStr with
  | None => toLocaleDateString dateStr
  | Some t =>
      let diff := (now - t)%Z in
      let mins := (diff / 60000)%Z in
      if (mins <? 1)%Z then "just now"
      else if (mins <? 60)%Z then (numberToString mins ++ "m ago")%string
      else
        let hours := (mins / 60)%Z in
        if (hours <? 24)%Z then (numberToString hours ++ "h ago")%string
        else
          let days := (hours / 24)%Z in
          if (days <? 30)%Z then (numberToString days ++ "d ago")%string
          else toLocaleDateString dateStr
  end.

End MarkupHelpers.

(** A reference browser: the host of an [http(s)://host/...] URL, and the
    date part of a timestamp. *)
Fixpoint upToSlash (s : string) : string :=
  match s with
  | EmptyString => EmptyString
  | String c s' => if Ascii.eqb c "/" then EmptyString else String c (upToSlash s')
  end.

Definition ref_hostname (url : string) : option string :=
  if String.prefix "https://" url then Some (upToSlash (Js.dropChars 8 url))
  else if String.prefix "http://" url then Some (upToSlash (Js.dropChars 7 url))
  else None.

#[local] Instance RefBrowser : Browser := {|
  hostname := ref_hostname;
  toLocaleDateString := fun dateStr =>
    match ref_getTime dateStr with
    | Some _ => substring 0 10 dateStr
    | None => "Invalid Date"
    end
|}.

(* ================================================================== *)
(** * Vocabulary of the invariants *)
(* ================================================================== *)

(** The form as [resetForm] leaves it. *)
Definition formIsReset (s : State) : Prop :=
  title s = "" /\ url s = "" /\ description s = "" /\ tag s = "" /\ editId s = None.

(** The code to resume belongs to [handleSubmit]. *)
Definition isSubmitCont (k : Cont) : bool :=
  match k with
  | handleSubmit_update_k => true
  | handleSubmit_insert_k => true
  | fetchBookmarks_k => false
  | handleDelete_k => false
  end.

(** Some call of [handleSubmit] awaits its answer. *)
Definition submitPending (w : World) : bool :=
  existsb (fun call => isSubmitCont (snd call)) (inflight w).

(** The number of records of a mirror that carry identifier [i]. *)
Definition countId (i : string) (m : list Bookmark.t) : nat :=
  List.length (filter (has_id i) m).

(** The mirror [m] is newest first, with no two records created at the same
    instant: each record is created strictly later than all that follow. *)
Definition createdAfter {H : Host} (a b : Bookmark.t) : Prop :=
  match getTime (Bookmark.created_at a), getTime (Bookmark.created_at b) with
  | Some ta, Some tb => (tb < ta)%Z
  | _, _ => False
  end.

(** The calls and the number of timers among the effects of a run. *)
Definition callsOf (effects : list Effect) : list (Request * Cont) :=
  flat_map (fun e => match e with
                     | Remote req k => [(req, k)]
                     | SetTimeout => []
                     end) effects.

Definition timeoutsOf (effects : list Effect) : nat :=
  List.length (filter (fun e => match e with
                                | Remote _ _ => false
                                | SetTimeout => true
                                end) effects).

(** Every character of the string is white space. *)
Fixpoint isBlank (s : string) : bool :=
  match s with
  | EmptyString => true
  | String c s' => Js.isWhiteSpace c && isBlank s'
  end.

(** Two runs of the reference session: Enter pressed on a filled creation
    form, and the confirm button pressed for record 2. *)
Definition enterRun : list Event :=
  [GetSessionResolved (Some alice); Settle 0 (succeeded [bm2; bm1]); ClickAdd;
   ChangeTitle "A"; ChangeUrl "https://a.example"; KeyDownUrl "Enter"].

Definition deleteRun : list Event :=
  [GetSessionResolved (Some alice); Settle 0 (succeeded [bm2; bm1]);
   ClickDeleteIcon "2"; ClickConfirmDelete].

(** No occurrence of [pattern] in [s] starts before position [n]. *)
Definition noneBefore (pattern : string) (n : nat) (s : string) : Prop :=
  forall k, k < n -> String.prefix pattern (Js.dropChars k s) = false.

(** A fourth record, with the title and the creation timestamp of
    record 1. *)
Definition bm4 : Bookmark.t :=
  {| Bookmark.id := "4"; Bookmark.title := "A"; Bookmark.url := "https://a4.example";
     Bookmark.description := None; Bookmark.tag := None;
     Bookmark.favicon := None; Bookmark.created_at := "2024-01-01T00:00:00Z" |}.

(** The row the backend holds after the write of title ["A"] and URL
    ["https://a.example"] with an empty note and tag. *)
Definition bmCreated : Bookmark.t :=
  {| Bookmark.id := "9"; Bookmark.title := "A"; Bookmark.url := "https://a.example";
     Bookmark.description := Some ""; Bookmark.tag := Some "";
     Bookmark.favicon := None; Bookmark.created_at := "2024-01-04T00:00:00Z" |}.

(** A run without any realtime event: sign in, create a record, have the
    insert answered without error, and only then have the first fetch
    answered, with the rows the backend holds by now. *)
Definition createRun : list Event :=
  [GetSessionResolved (Some alice); ClickAdd; ChangeTitle "A";
   ChangeUrl "https://a.example"; ClickSubmit;
   Settle 1 {| data := None; error := None |};
   Settle 0 (succeeded [bmCreated])].

(** The event is a realtime event. *)
Definition isPostgres (e : Event) : bool :=
  match e with
  | Postgres _ => true
  | _ => false
  end.

(* ================================================================== *)
(** * Facts about the built-ins *)
(* ================================================================== *)

Section JsFacts.

Lemma prefix_app (q s : string) :
  String.prefix q s = true <-> exists post, s = (q ++ post)%string.
Proof.
  revert s; induction q as [|c q IH]; intros s; simpl.
  - destruct s; split; intros; eauto.
  - destruct s as [|d s]; simpl.
    + split; [discriminate | intros [post E]; discriminate].
    + destruct (ascii_dec c d) as [->|N].
      * rewrite IH. split; intros [post E]; exists post.
        -- now rewrite E.
        -- now injection E.
      * split; [discriminate | intros [post E]; injection E; congruence].
Qed.

(** [includes] decides occurrence as a contiguous substring. *)
Lemma includes_spec (s q : string) :
  Js.includes s q = true <-> exists pre post, s = (pre ++ q ++ post)%string.
Proof.
  induction s as [|c s IH]; cbn [Js.includes].
  - rewrite prefix_app. split.
    + intros [post E]. exists EmptyString, post. exact E.
    + intros [pre [post E]]. destruct pre; simpl in E; [eauto | discriminate].
  - rewrite orb_true_iff, IH, prefix_app. split.
    + intros [[post E] | [pre [post E]]].
      * exists EmptyString, post. exact E.
      * exists (String c pre), post. simpl. now rewrite E.
    + intros [pre [post E]]. destruct pre as [|d pre]; simpl in E.
      * left. eauto.
      * right. injection E as _ E. eauto.
Qed.

Lemma includes_empty (s : string) : Js.includes s "" = true.
Proof. apply includes_spec. exists EmptyString, s. reflexivity. Qed.

Lemma truthy_false (s : string) : Js.truthy s = false <-> s = "".
Proof. destruct s; simpl; split; congruence. Qed.

Lemma truthy_true (s : string) : Js.truthy s = true <-> s <> "".
Proof. destruct s; simpl; split; congruence. Qed.

Context {A : Type} (cmp : A -> A -> Z).

Lemma insert_perm (x : A) (l : list A) : Permutation (x :: l) (Js.insert cmp x l).
Proof.
  induction l as [|y l IH]; simpl; [reflexivity|].
  destruct (cmp x y <=? 0)%Z; [reflexivity|].
  rewrite perm_swap. now constructor.
Qed.

Lemma insert_Forall (P : A -> Prop) (x : A) (l : list A) :
  P x -> Forall P l -> Forall P (Js.insert cmp x l).
Proof.
  intros Hx Hl. apply (Permutation_Forall (insert_perm x l)). now constructor.
Qed.

(** Inserting into a sorted list keeps it sorted, for a comparator
    consistent on the elements at hand. *)
Lemma insert_sorted (S : A -> Prop) (x : A) (l : list A) :
  consistent_on S cmp -> S x -> Forall S l ->
  StronglySorted (fun a b => (cmp a b <= 0)%Z) l ->
  StronglySorted (fun a b => (cmp a b <= 0)%Z) (Js.insert cmp x l).
Proof.
  intros C Sx Sl Hs. induction Hs as [|y l Hs IH Hy]; simpl.
  - repeat constructor.
  - apply Forall_cons_iff in Sl as [Sy Sl].
    destruct (cmp x y <=? 0)%Z eqn:E.
    + apply Z.leb_le in E. constructor; [now constructor|].
      constructor; [exact E|].
      rewrite Forall_forall in *. intros z Hz.
      apply (cmp_trans _ _ C x y z); auto.
    + apply Z.leb_gt in E. constructor; [now apply IH|].
      apply insert_Forall; [|exact Hy].
      now apply (cmp_total _ _ C).
Qed.

(** [insert] puts [x] in front of every element it does not follow, so in
    front of every element of a class [p] whose members do not follow one
    another. *)
Lemma insert_filter_in (p : A -> bool) (x : A) (l : list A) :
  p x = true ->
  (forall y, In y l -> p y = true -> (cmp x y <= 0)%Z) ->
  filter p (Js.insert cmp x l) = x :: filter p l.
Proof.
  intros Hx Hl. induction l as [|y l IH]; simpl.
  - now rewrite Hx.
  - destruct (cmp x y <=? 0)%Z eqn:E; simpl.
    + now rewrite Hx.
    + apply Z.leb_gt in E. destruct (p y) eqn:Hy.
      * specialize (Hl y (or_introl eq_refl) Hy). lia.
      * apply IH. intros z Hz. apply Hl. now right.
Qed.

Lemma insert_filter_out (p : A -> bool) (x : A) (l : list A) :
  p x = false -> filter p (Js.insert cmp x l) = filter p l.
Proof.
  intros Hx. induction l as [|y l IH]; simpl.
  - now rewrite Hx.
  - destruct (cmp x y <=? 0)%Z; simpl; [now rewrite Hx|].
    now rewrite IH.
Qed.

End JsFacts.

Section SortFacts.
Context {A : Type} (comparefn : A -> A -> Js.number).

Lemma sort_perm (l : list A) : Permutation l (Js.sort comparefn l).
Proof.
  induction l as [|x l IH]; simpl; [reflexivity|].
  unfold Js.sort in *. simpl. rewrite <- insert_perm. now constructor.
Qed.

Lemma sort_Forall (P : A -> Prop) (l : list A) :
  Forall P l -> Forall P (Js.sort comparefn l).
Proof. apply Permutation_Forall, sort_perm. Qed.

Lemma sort_sorted (S : A -> Prop) (l : list A) :
  consistent_on S (Js.SortCompare comparefn) -> Forall S l ->
  StronglySorted (fun a b => (Js.SortCompare comparefn a b <= 0)%Z) (Js.sort comparefn l).
Proof.
  intros C Sl. induction l as [|x l IH]; [constructor|].
  apply Forall_cons_iff in Sl as [Sx Sl].
  change (Js.sort comparefn (x :: l))
    with (Js.insert (Js.SortCompare comparefn) x (Js.sort comparefn l)).
  apply insert_sorted with (S := S); auto using sort_Forall.
Qed.

(** The sort is stable: the members of a class of elements that do not
    follow one another come out in the order they went in. *)
Lemma sort_stable (p : A -> bool) (l : list A) :
  (forall x y, p x = true -> p y = true -> (Js.SortCompare comparefn x y <= 0)%Z) ->
  filter p (Js.sort comparefn l) = filter p l.
Proof.
  intros Hp. induction l as [|x l IH]; [reflexivity|].
  change (Js.sort comparefn (x :: l))
    with (Js.insert (Js.SortCompare comparefn) x (Js.sort comparefn l)).
  simpl. destruct (p x) eqn:Hx.
  - rewrite insert_filter_in; auto. now rewrite IH.
  - rewrite insert_filter_out; auto.
Qed.

End SortFacts.

Lemma StronglySorted_weaken {A : Type} (R R' : A -> A -> Prop) (S : A -> Prop) (l : list A) :
  (forall a b, S a -> S b -> R a b -> R' a b) ->
  Forall S l -> StronglySorted R l -> StronglySorted R' l.
Proof.
  intros HR Sl Hs. induction Hs as [|x l Hs IH Hx]; [constructor|].
  apply Forall_cons_iff in Sl as [Sx Sl].
  constructor; [now apply IH|].
  rewrite Forall_forall in *. intros y Hy. apply HR; auto.
Qed.

(* ================================================================== *)
(** * The derived view *)
(* ================================================================== *)

Section ViewFacts.
Context {H : Host}.

Lemma matchesSearch_spec (q : string) (b : Bookmark.t) :
  matchesSearch (toLowerCase q) b = true <->
  spec_containsIgnoringCase (Bookmark.title b) q
  \/ spec_containsIgnoringCase (Bookmark.url b) q
  \/ exists note, Bookmark.description b = Some note /\ spec_containsIgnoringCase note q.
Proof.
  unfold matchesSearch, spec_containsIgnoringCase.
  rewrite !orb_true_iff, !includes_spec.
  destruct (Bookmark.description b) as [d|].
  - rewrite includes_spec. split.
    + intros [[Ht | Hu] | Hd]; eauto 6.
    + intros [Ht | [Hu | [note [E Hd]]]]; auto. injection E as ->. auto.
  - split.
    + intros [[Ht | Hu] | Hd]; auto. discriminate.
    + intros [Ht | [Hu | [note [E _]]]]; auto. discriminate.
Qed.

Lemma hasTag_spec (t : string) (b : Bookmark.t) :
  hasTag t b = true <-> Bookmark.tag b = Some t.
Proof.
  unfold hasTag. destruct (Bookmark.tag b) as [t'|].
  - rewrite String.eqb_eq. split; congruence.
  - split; discriminate.
Qed.

(** The code's filter predicate says what the specification's words say. *)
Lemma passesFilters_spec (q t : string) (b : Bookmark.t) :
  passesFilters q t b = true <-> spec_retained q t b.
Proof.
  unfold passesFilters, spec_retained, spec_matchesQuery, spec_matchesTag.
  rewrite andb_true_iff, !orb_true_iff, negb_true_iff, truthy_false.
  rewrite matchesSearch_spec, String.eqb_eq, hasTag_spec. tauto.
Qed.

Lemma filter_filter {A : Type} (f g : A -> bool) (l : list A) :
  filter g (filter f l) = filter (fun x => f x && g x) l.
Proof.
  induction l as [|x l IH]; simpl; [reflexivity|].
  destruct (f x); simpl; [destruct (g x)|]; now rewrite IH.
Qed.

Lemma filter_all {A : Type} (f : A -> bool) (l : list A) :
  (forall x, f x = true) -> filter f l = l.
Proof.
  intros Hf. induction l as [|x l IH]; simpl; [reflexivity|].
  now rewrite Hf, IH.
Qed.

(** The two guarded [filter] calls amount to one [filter]. *)
Lemma filters_as_one (R : list Bookmark.t) (q t : string) :
  tagFilter t (searchFilter q R) = filter (passesFilters q t) R.
Proof.
  unfold tagFilter, searchFilter, passesFilters.
  destruct (Js.truthy q), (String.eqb t "All"); simpl.
  - apply filter_ext. intros b. now rewrite andb_true_r.
  - apply filter_filter.
  - symmetry. now apply filter_all.
  - reflexivity.
Qed.

Lemma sortStage_perm (k : SortKey) (l : list Bookmark.t) :
  Permutation l (sortStage k l).
Proof. destruct k; simpl; auto using sort_perm. Qed.

End ViewFacts.

(** C2 (as amended).  For every mirror [R], query [Q] and active tag [T]
    there is one predicate, true exactly of the records whose title, URL or
    note contains [Q] ignoring case (every record when [Q] is empty) and
    whose tag is [T] unless [T] is ["All"], such that under sort key
    ["newest"] the derived view is [R] filtered by it, in [R]'s order, and
    under every sort key the derived view holds exactly the records so
    retained, each as often as in [R]. *)
Theorem C2_view_retains_matching_records
    {H : Host} (R : list Bookmark.t) (Q T : string) :
  exists keep : Bookmark.t -> bool,
    (forall b, keep b = true <-> spec_retained Q T b)
    /\ derived_view R Q T newest = filter keep R
    /\ forall k, Permutation (filter keep R) (derived_view R Q T k).
Proof.
  exists (passesFilters Q T). split; [|split].
  - apply passesFilters_spec.
  - unfold derived_view. simpl. apply filters_as_one.
  - intros k. unfold derived_view. rewrite filters_as_one. apply sortStage_perm.
Qed.

(** C2 as stated fails: with mirror [[bm2; bm1]], empty query, tag ["All"]
    and sort key ["alpha"], the derived view is [[bm1; bm2]], which is no
    selection of the mirror's records in the mirror's order. *)
Lemma C2_alpha_view_not_in_mirror_order :
  derived_view (H:=RefHost) [bm2; bm1] "" "All" alpha = [bm1; bm2]
  /\ ~ exists keep : Bookmark.t -> bool,
         derived_view (H:=RefHost) [bm2; bm1] "" "All" alpha = filter keep [bm2; bm1].
Proof.
  split; [reflexivity|].
  intros [keep E]. change (derived_view [bm2; bm1] "" "All" alpha) with [bm1; bm2] in E.
  simpl in E. destruct (keep bm2), (keep bm1); discriminate.
Qed.

Section SortedViews.
Context {H : Host}.

(** A consistent [localeCompare] makes the title comparator consistent on
    all records. *)
Lemma byTitle_consistent :
  consistent_on (fun _ : string => True) localeCompare ->
  consistent_on (fun _ : Bookmark.t => True) (Js.SortCompare byTitle).
Proof.
  intros [Htot Htr]. split; unfold Js.SortCompare, byTitle; intros.
  - now apply Htot.
  - now apply Htr with (b := Bookmark.title b).
Qed.

(** On records whose timestamps are dates the creation-time comparator is
    the difference of two integers, hence consistent. *)
Lemma byCreatedAt_consistent :
  consistent_on hasValidDate (Js.SortCompare byCreatedAt).
Proof.
  split; unfold hasValidDate, Js.SortCompare, byCreatedAt, Js.sub.
  - intros a b Ha Hb.
    destruct (getTime (Bookmark.created_at a)), (getTime (Bookmark.created_at b));
      try contradiction; lia.
  - intros a b c Ha Hb Hc.
    destruct (getTime (Bookmark.created_at a)), (getTime (Bookmark.created_at b)),
      (getTime (Bookmark.created_at c)); try contradiction; lia.
Qed.

Lemma byCreatedAt_le (a b : Bookmark.t) :
  hasValidDate a -> hasValidDate b ->
  (Js.SortCompare byCreatedAt a b <= 0)%Z -> createdNotAfter a b.
Proof.
  unfold hasValidDate, Js.SortCompare, byCreatedAt, Js.sub, createdNotAfter.
  destruct (getTime (Bookmark.created_at a)), (getTime (Bookmark.created_at b));
    try contradiction; lia.
Qed.

Lemma filters_Forall (P : Bookmark.t -> Prop) (R : list Bookmark.t) (q t : string) :
  Forall P R -> Forall P (tagFilter t (searchFilter q R)).
Proof.
  rewrite filters_as_one, !Forall_forall. intros HP b Hb.
  apply filter_In in Hb as [Hb _]. auto.
Qed.

End SortedViews.

(** C3.  For every mirror, query and active tag: under ["alpha"] the derived
    view is non-decreasing by [localeCompare] of titles, [localeCompare]
    being a consistent comparator as ECMA-262 requires of it; under
    ["oldest"] it is non-decreasing by creation timestamp, the mirror's
    timestamps being dates as the storage collaborator assigns them; under
    ["newest"] it is the filtered mirror, no sort applied. *)
Theorem C3_view_sorted_by_key
    {H : Host} (R : list Bookmark.t) (Q T : string) :
  (consistent_on (fun _ : string => True) localeCompare ->
   StronglySorted titleNotAfter (derived_view R Q T alpha))
  /\ (Forall hasValidDate R ->
      StronglySorted createdNotAfter (derived_view R Q T oldest))
  /\ derived_view R Q T newest = tagFilter T (searchFilter Q R).
Proof.
  unfold derived_view. simpl. split; [|split].
  - intros Hloc. apply (sort_sorted byTitle (fun _ => True)).
    + now apply byTitle_consistent.
    + apply Forall_forall. trivial.
  - intros Hdates.
    pose proof (filters_Forall hasValidDate R Q T Hdates) as Hv.
    apply StronglySorted_weaken
      with (R := fun a b => (Js.SortCompare byCreatedAt a b <= 0)%Z) (S := hasValidDate).
    + apply byCreatedAt_le.
    + now apply sort_Forall.
    + apply (sort_sorted byCreatedAt hasValidDate); [apply byCreatedAt_consistent | exact Hv].
  - reflexivity.
Qed.

(** The reference host's collation is a consistent comparator. *)
Lemma ascii_compare_lt (x y : ascii) :
  Ascii.compare x y = Lt <-> (N_of_ascii x < N_of_ascii y)%N.
Proof. unfold Ascii.compare. now rewrite N.compare_lt_iff. Qed.

Lemma string_compare_refl (a : string) : String.compare a a = Eq.
Proof.
  induction a as [|x a IH]; simpl; [reflexivity|].
  unfold Ascii.compare. now rewrite N.compare_refl.
Qed.

Lemma string_compare_not_gt_trans (a b c : string) :
  String.compare a b <> Gt -> String.compare b c <> Gt -> String.compare a c <> Gt.
Proof.
  revert b c. induction a as [|x a IH]; intros [|y b] [|z c]; simpl; try congruence.
  destruct (Ascii.compare x y) eqn:E1; destruct (Ascii.compare y z) eqn:E2;
    try congruence; intros H1 H2.
  - apply Ascii.compare_eq_iff in E1. apply Ascii.compare_eq_iff in E2. subst.
    unfold Ascii.compare. rewrite N.compare_refl. eauto.
  - apply Ascii.compare_eq_iff in E1. subst. now rewrite E2.
  - apply Ascii.compare_eq_iff in E2. subst. now rewrite E1.
  - apply (proj1 (ascii_compare_lt _ _)) in E1.
    apply (proj1 (ascii_compare_lt _ _)) in E2.
    assert (E : Ascii.compare x z = Lt) by (apply ascii_compare_lt; lia).
    now rewrite E.
Qed.

Lemma ref_localeCompare_consistent :
  consistent_on (fun _ : string => True) ref_localeCompare.
Proof.
  split; unfold ref_localeCompare.
  - intros a b _ _. rewrite (String.compare_antisym b a).
    destruct (String.compare a b); simpl; lia.
  - intros a b c _ _ _ H1 H2.
    pose proof (string_compare_not_gt_trans a b c) as Htr.
    destruct (String.compare a b), (String.compare b c), (String.compare a c);
      simpl in *; try lia; exfalso; apply Htr; congruence.
Qed.

(** C3 at the mirror [[bm2; bm1]] on the reference host. *)
Lemma C3_view_sorted_by_key_witness :
  StronglySorted (titleNotAfter (H:=RefHost)) (derived_view [bm2; bm1] "" "All" alpha)
  /\ StronglySorted (createdNotAfter (H:=RefHost)) (derived_view [bm2; bm1] "" "All" oldest)
  /\ derived_view (H:=RefHost) [bm2; bm1] "" "All" newest
     = tagFilter "All" (searchFilter "" [bm2; bm1]).
Proof.
  destruct (C3_view_sorted_by_key (H:=RefHost) [bm2; bm1] "" "All")
    as (Halpha & Holdest & Hnewest).
  split; [|split].
  - apply Halpha. exact ref_localeCompare_consistent.
  - apply Holdest. repeat constructor; discriminate.
  - exact Hnewest.
Defined.

(* ================================================================== *)
(** * The event loop: how a turn changes the world *)
(* ================================================================== *)

Section RunFacts.
Context {H : Host}.

Lemma run_set (f : State -> State) (w : World) :
  run (set f) w = withUi (f (ui w)) w.
Proof. reflexivity. Qed.

Lemma run_filterSortEffect (w : World) :
  run filterSortEffect w
  = withUi (setFiltered (derived_view (bookmarks (ui w)) (search (ui w))
                           (activeTag (ui w)) (sortBy (ui w))) (ui w)) w.
Proof. reflexivity. Qed.

(** The render's effect stores [filtered] and nothing else. *)
Lemma render_keeps (w : World) :
  bookmarks (ui (run filterSortEffect w)) = bookmarks (ui w)
  /\ inflight (run filterSortEffect w) = inflight w
  /\ sent (run filterSortEffect w) = sent w
  /\ timers (run filterSortEffect w) = timers w
  /\ channel (run filterSortEffect w) = channel w.
Proof. rewrite run_filterSortEffect. repeat split. Qed.

Lemma step_dispatch (w w' : World) (e : Event) :
  dispatch e w = Some w' -> step w e = Some (run filterSortEffect w').
Proof. unfold step. now intros ->. Qed.

End RunFacts.

(* ================================================================== *)
(** * The realtime reducer *)
(* ================================================================== *)

(** C4.  While the channel is subscribed, an insert event puts the new
    record at the front of the mirror and leaves the rest as it was, in its
    order: the mirror after the turn is [new :: mirror], whatever the
    creation timestamps of [new] and of the records already there. *)
Theorem C4_insert_event_prepends
    {H : Host} (w : World) (new : Bookmark.t) (c : string) :
  channel w = Some c ->
  exists w', step w (Postgres (INSERT new)) = Some w'
             /\ bookmarks (ui w') = new :: bookmarks (ui w).
Proof.
  intros Hc. eexists. split.
  - apply step_dispatch. simpl. rewrite Hc. reflexivity.
  - reflexivity.
Qed.

(** C4 at the specification's scenario 5: mirror [[2; 1]], insert of 3. *)
Lemma C4_insert_event_prepends_witness :
  exists w', step (H:=RefHost) (mirrorWorld [bm2; bm1]) (Postgres (INSERT bm3)) = Some w'
             /\ bookmarks (ui w') = [bm3; bm2; bm1].
Proof.
  apply (C4_insert_event_prepends (H:=RefHost) (mirrorWorld [bm2; bm1]) bm3 (User.id alice)).
  reflexivity.
Defined.

(** An insert event for the oldest record still lands in front. *)
Example insert_event_out_of_order :
  applyPayload (INSERT bm1) [bm3; bm2] = [bm1; bm3; bm2].
Proof. reflexivity. Qed.

(** C5.  An update event carrying a record with identifier [i] keeps the
    mirror's length and the identifier at every position; at each position
    the record is the event's record if its identifier is [i], and the record
    that was there otherwise. *)
Theorem C5_update_event_in_place (new : Bookmark.t) (prev : list Bookmark.t) :
  let mirror := applyPayload (UPDATE new) prev in
  List.length mirror = List.length prev
  /\ map Bookmark.id mirror = map Bookmark.id prev
  /\ forall n b, nth_error prev n = Some b ->
       nth_error mirror n = Some (if String.eqb (Bookmark.id b) (Bookmark.id new) then new else b).
Proof.
  simpl. split; [|split].
  - apply length_map.
  - rewrite map_map. apply map_ext. intros b. unfold has_id.
    destruct (String.eqb_spec (Bookmark.id b) (Bookmark.id new)); congruence.
  - intros n b Hn. rewrite nth_error_map, Hn. reflexivity.
Qed.

(** The same through the event loop: the turn of an update event changes the
    mirror by [applyPayload] only. *)
Lemma update_event_turn {H : Host} (w : World) (new : Bookmark.t) (c : string) :
  channel w = Some c ->
  exists w', step w (Postgres (UPDATE new)) = Some w'
             /\ bookmarks (ui w') = applyPayload (UPDATE new) (bookmarks (ui w)).
Proof.
  intros Hc. eexists. split.
  - apply step_dispatch. simpl. rewrite Hc. reflexivity.
  - reflexivity.
Qed.

(* ================================================================== *)
(** * Optimistic delete *)
(* ================================================================== *)

Lemma removed_absent (x : string) (l : list Bookmark.t) :
  ~ In x (map Bookmark.id (filter (fun b => negb (has_id x b)) l)).
Proof.
  rewrite in_map_iff. intros [b [E Hb]]. apply filter_In in Hb as [_ Hb].
  unfold has_id in Hb. rewrite E, String.eqb_refl in Hb. discriminate.
Qed.

Section DeleteFacts.
Context {H : Host}.

(** The turn of the confirm button: everything [handleDelete] does before
    its [await]. *)
Lemma confirm_delete_turn (w : World) (x : string) :
  showsDeleteConfirm (ui w) = true -> deleteTarget (ui w) = Some x ->
  exists w1, step w ClickConfirmDelete = Some w1
    /\ bookmarks (ui w1) = filter (fun b => negb (has_id x b)) (bookmarks (ui w))
    /\ deleteTarget (ui w1) = None
    /\ toastMsg (ui w1) = Some "Bookmark deleted"
    /\ inflight w1 = inflight w ++ [(Delete x, handleDelete_k)]
    /\ sent w1 = sent w ++ [Delete x].
Proof.
  intros Hshow Hx. eexists. split.
  - apply step_dispatch. simpl. rewrite Hx, Hshow. reflexivity.
  - repeat split.
Qed.

(** The turn in which the delete request is answered with an error: the
    rest of [handleDelete]. *)
Lemma delete_failure_turn (w : World) (n : nat) (x : string) (resp : Response) (e : string) :
  nth_error (inflight w) n = Some (Delete x, handleDelete_k) ->
  error resp = Some e ->
  Js.truthy_opt (userIdRef (ui w)) = true ->
  exists w', step w (Settle n resp) = Some w'
    /\ bookmarks (ui w') = bookmarks (ui w)
    /\ toastMsg (ui w') = Some "Delete failed — restoring..."
    /\ inflight w' = removeNth n (inflight w) ++ [(fetchQuery, fetchBookmarks_k)]
    /\ sent w' = sent w ++ [fetchQuery].
Proof.
  intros Hn He Href. eexists. split.
  - apply step_dispatch. simpl. rewrite Hn. reflexivity.
  - cbn [resume]. unfold handleDelete_resume. rewrite He.
    unfold run, seq, toast, set, fetchBookmarks. simpl. rewrite Href.
    simpl. repeat split.
Qed.

(** The turn in which a fetch is answered. *)
Lemma fetch_answer_turn (w : World) (n : nat) (resp : Response) :
  nth_error (inflight w) n = Some (fetchQuery, fetchBookmarks_k) ->
  exists w', step w (Settle n resp) = Some w'
    /\ bookmarks (ui w')
       = match error resp with
         | None => match data resp with Some rows => rows | None => [] end
         | Some _ => bookmarks (ui w)
         end
    /\ toastMsg (ui w') = toastMsg (ui w)
    /\ inflight w' = removeNth n (inflight w)
    /\ sent w' = sent w
    /\ timers w' = timers w.
Proof.
  intros Hn. eexists. split.
  - apply step_dispatch. simpl. rewrite Hn. reflexivity.
  - cbn [resume]. unfold fetchBookmarks_resume.
    destruct (error resp); repeat split.
Qed.

End DeleteFacts.

(** C1.  When the confirm button is pressed for record [x], the turn itself
    removes every record with identifier [x] from the mirror, closes the
    dialog and shows the notification, and leaves the delete request in
    flight: the removal precedes the answer.  Whenever that request is later
    answered with an error (the identity ref being set), the turn that
    handles the answer leaves the mirror as it is, re-inserting nothing, and
    sends the query of [fetchBookmarks]; and whenever a query of
    [fetchBookmarks] is answered without error, the mirror becomes the rows
    of the answer. *)
Theorem C1_optimistic_delete_then_refetch
    {H : Host} (w : World) (x : string) :
  showsDeleteConfirm (ui w) = true -> deleteTarget (ui w) = Some x ->
  (exists w1, step w ClickConfirmDelete = Some w1
     /\ ~ In x (map Bookmark.id (bookmarks (ui w1)))
     /\ bookmarks (ui w1) = filter (fun b => negb (has_id x b)) (bookmarks (ui w))
     /\ deleteTarget (ui w1) = None
     /\ toastMsg (ui w1) = Some "Bookmark deleted"
     /\ inflight w1 = inflight w ++ [(Delete x, handleDelete_k)])
  /\ (forall (w2 : World) (n : nat) (resp : Response) (e : string),
        nth_error (inflight w2) n = Some (Delete x, handleDelete_k) ->
        error resp = Some e ->
        Js.truthy_opt (userIdRef (ui w2)) = true ->
        exists w3, step w2 (Settle n resp) = Some w3
          /\ bookmarks (ui w3) = bookmarks (ui w2)
          /\ inflight w3 = removeNth n (inflight w2) ++ [(fetchQuery, fetchBookmarks_k)])
  /\ (forall (w4 : World) (m : nat) (rows : list Bookmark.t),
        nth_error (inflight w4) m = Some (fetchQuery, fetchBookmarks_k) ->
        exists w5, step w4 (Settle m (succeeded rows)) = Some w5
          /\ bookmarks (ui w5) = rows).
Proof.
  intros Hshow Hx. split; [|split].
  - destruct (confirm_delete_turn w x Hshow Hx) as (w1 & Hs & Hb & Hd & Ht & Hi & _).
    exists w1. repeat split; auto. rewrite Hb. apply removed_absent.
  - intros w2 n resp e Hn He Href.
    destruct (delete_failure_turn w2 n x resp e Hn He Href) as (w3 & Hs & Hb & _ & Hi & _).
    exists w3. auto.
  - intros w4 m rows Hm.
    destruct (fetch_answer_turn w4 m (succeeded rows) Hm) as (w5 & Hs & Hb & _).
    exists w5. auto.
Qed.

(** C1 at the specification's scenario 6: mirror [[2; 1]], delete of 2, the
    request fails, and the backend, which still holds 2, answers the
    refetch. *)
Lemma C1_optimistic_delete_then_refetch_witness :
  exists w1 w3 w5,
    step (H:=RefHost) (confirmWorld [bm2; bm1] "2") ClickConfirmDelete = Some w1
    /\ bookmarks (ui w1) = [bm1]
    /\ step (H:=RefHost) w1 (Settle 0 (failed "timeout")) = Some w3
    /\ bookmarks (ui w3) = [bm1]
    /\ step (H:=RefHost) w3 (Settle 0 (succeeded [bm2; bm1])) = Some w5
    /\ bookmarks (ui w5) = [bm2; bm1].
Proof.
  destruct (C1_optimistic_delete_then_refetch (H:=RefHost) (confirmWorld [bm2; bm1] "2") "2"
              eq_refl eq_refl) as [(w1 & S1 & _ & B1 & _ & _ & I1) [F R]].
  assert (U1 : Js.truthy_opt (userIdRef (ui w1)) = true)
    by (vm_compute in S1; injection S1 as <-; reflexivity).
  destruct (F w1 0 (failed "timeout") "timeout") as (w3 & S3 & B3 & I3);
    [rewrite I1; reflexivity | reflexivity | exact U1 |].
  destruct (R w3 0 [bm2; bm1]) as (w5 & S5 & B5);
    [rewrite I3, I1; reflexivity |].
  exists w1, w3, w5. repeat split; auto. now rewrite B3.
Defined.

(* ================================================================== *)
(** * The first fetch *)
(* ================================================================== *)

(** C9.  With a non-empty identity in the ref, [fetchBookmarks] sends one
    query, for all rows ordered by [created_at] descending, and changes no
    state.  When the query is answered without error the mirror becomes the
    rows of the answer, in the order of the answer (no rows when the answer
    has none).  When it is answered with an error the turn is still taken,
    and the mirror, the notification, the timers and the requests sent are
    what they were. *)
Theorem C9_fetch_replaces_or_keeps
    {H : Host} (w : World) (uid : string) :
  userIdRef (ui w) = Some uid -> uid <> "" ->
  fetchBookmarks (ui w) = (ui w, [Remote (Select "created_at" false) fetchBookmarks_k])
  /\ (forall (w2 : World) (n : nat),
        nth_error (inflight w2) n = Some (Select "created_at" false, fetchBookmarks_k) ->
        (forall d, exists w3,
            step w2 (Settle n {| data := d; error := None |}) = Some w3
            /\ bookmarks (ui w3) = match d with Some rows => rows | None => [] end)
        /\ (forall d e, exists w3,
            step w2 (Settle n {| data := d; error := Some e |}) = Some w3
            /\ bookmarks (ui w3) = bookmarks (ui w2)
            /\ toastMsg (ui w3) = toastMsg (ui w2)
            /\ timers w3 = timers w2
            /\ sent w3 = sent w2)).
Proof.
  intros Href Hne. split.
  - unfold fetchBookmarks. rewrite Href. simpl.
    apply truthy_true in Hne. now rewrite Hne.
  - intros w2 n Hn. split.
    + intros d.
      destruct (fetch_answer_turn w2 n {| data := d; error := None |} Hn)
        as (w3 & Hs & Hb & _).
      exists w3. auto.
    + intros d e.
      destruct (fetch_answer_turn w2 n {| data := d; error := Some e |} Hn)
        as (w3 & Hs & Hb & Ht & _ & Hsent & Htim).
      exists w3. auto.
Qed.

(** C9 in the signed-in session of the reference host. *)
Lemma C9_fetch_replaces_or_keeps_witness :
  fetchBookmarks (ui (mirrorWorld [bm1]))
  = (ui (mirrorWorld [bm1]), [Remote (Select "created_at" false) fetchBookmarks_k]).
Proof.
  apply (C9_fetch_replaces_or_keeps (H:=RefHost) (mirrorWorld [bm1]) "u-1").
  - reflexivity.
  - discriminate.
Defined.

(* ================================================================== *)
(** * Create and update *)
(* ================================================================== *)

Lemma world_eta (w : World) : withUi (ui w) w = w.
Proof. now destruct w. Qed.

Lemma invalidForm_true (r : State) :
  invalidForm r = true <-> Js.trim (title r) = "" \/ Js.trim (url r) = "".
Proof.
  unfold invalidForm. now rewrite orb_true_iff, !negb_true_iff, !truthy_false.
Qed.

Lemma invalidForm_false (r : State) :
  invalidForm r = false <-> Js.trim (title r) <> "" /\ Js.trim (url r) <> "".
Proof.
  unfold invalidForm. now rewrite orb_false_iff, !negb_false_iff, !truthy_true.
Qed.

(** [handleSubmit] returns at once on an invalid form. *)
Lemma handleSubmit_invalid (r s : State) :
  invalidForm r = true -> handleSubmit r s = (s, []).
Proof. unfold handleSubmit. now intros ->. Qed.

(** On a valid form it sets the flag and starts at most one call, a write
    of the four cells as the render holds them. *)
Lemma handleSubmit_valid (r s : State) :
  invalidForm r = false ->
  handleSubmit r s
  = (setSubmitting true s,
     match editId r, user r with
     | Some (String c i), _ => [Remote (Update (formFields r) (String c i)) handleSubmit_update_k]
     | _, Some u => [Remote (Insert (formFields r) (User.id u)) handleSubmit_insert_k]
     | _, None => []
     end).
Proof.
  unfold handleSubmit. intros ->.
  destruct (editId r) as [[|c i]|], (user r); reflexivity.
Qed.

Section SubmitFacts.
Context {H : Host}.

Lemma showsPanel_user (r : State) :
  showsPanel r = true -> exists u, user r = Some u.
Proof.
  unfold showsPanel, showsMain. destruct (user r) as [u|]; [eauto|].
  now rewrite andb_false_r.
Qed.

(** The two ways to submit run the same handler on the current render; the
    button only while it is not disabled. *)
Lemma submit_turn (w w' : World) (e : Event) :
  e = ClickSubmit \/ e = KeyDownUrl "Enter" ->
  step w e = Some w' ->
  showsPanel (ui w) = true
  /\ w' = run filterSortEffect (run (handleSubmit (ui w)) w).
Proof.
  unfold step. intros [-> | ->]; simpl.
  - destruct (showsPanel (ui w)); simpl; [|discriminate].
    destruct (submitDisabled (ui w)); simpl; [discriminate|].
    intros E. injection E as <-. auto.
  - destruct (showsPanel (ui w)); simpl; [|discriminate].
    intros E. injection E as <-. auto.
Qed.

(** The handler's run on a valid form, as a world. *)
Lemma run_handleSubmit_valid (w : World) :
  invalidForm (ui w) = false ->
  run (handleSubmit (ui w)) w
  = fold_left (fun w' e => startEffect e w')
      match editId (ui w), user (ui w) with
      | Some (String c i), _ =>
          [Remote (Update (formFields (ui w)) (String c i)) handleSubmit_update_k]
      | _, Some u => [Remote (Insert (formFields (ui w)) (User.id u)) handleSubmit_insert_k]
      | _, None => []
      end
      (withUi (setSubmitting true (ui w)) w).
Proof. intros Hvalid. unfold run. now rewrite (handleSubmit_valid _ _ Hvalid). Qed.

(** A key pressed in the URL field of an invalid form: the turn is the
    render alone. *)
Lemma keydown_invalid_turn (w w' : World) (key : string) :
  invalidForm (ui w) = true ->
  step w (KeyDownUrl key) = Some w' -> w' = run filterSortEffect w.
Proof.
  intros Hinv. unfold step. simpl. destruct (showsPanel (ui w)); [|discriminate].
  intros E. injection E as <-.
  destruct (String.eqb key "Enter"); [|reflexivity].
  unfold run at 2. rewrite (handleSubmit_invalid _ _ Hinv). simpl.
  now rewrite world_eta.
Qed.

End SubmitFacts.

(** C7.  When the title or the URL is empty after trimming, the submit
    button is disabled and cannot be pressed, [handleSubmit] returns without
    a state update or a call, and a key pressed in the URL field, Enter
    included, sends no request and leaves the calls in flight and the
    submitting flag as they were. *)
Theorem C7_invalid_form_sends_nothing
    {H : Host} (w : World) :
  Js.trim (title (ui w)) = "" \/ Js.trim (url (ui w)) = "" ->
  submitDisabled (ui w) = true
  /\ step w ClickSubmit = None
  /\ (forall s, handleSubmit (ui w) s = (s, []))
  /\ (forall key w', step w (KeyDownUrl key) = Some w' ->
        sent w' = sent w /\ inflight w' = inflight w
        /\ submitting (ui w') = submitting (ui w)).
Proof.
  intros Hinv. apply invalidForm_true in Hinv.
  assert (Hdis : submitDisabled (ui w) = true) by (unfold submitDisabled; now rewrite Hinv).
  split; [exact Hdis|]. split; [|split].
  - unfold step. simpl. rewrite Hdis. now rewrite andb_false_r.
  - intros s. now apply handleSubmit_invalid.
  - intros key w' Hs. rewrite (keydown_invalid_turn w w' key Hinv Hs). repeat split.
Qed.

(** C7 at the specification's scenario 4: the creation panel with an empty
    title. *)
Lemma C7_invalid_form_sends_nothing_witness :
  submitDisabled (ui (formWorld [] "" "https://a.example")) = true
  /\ step (H:=RefHost) (formWorld [] "" "https://a.example") ClickSubmit = None
  /\ (forall s, handleSubmit (ui (formWorld [] "" "https://a.example")) s = (s, []))
  /\ (forall key w',
        step (H:=RefHost) (formWorld [] "" "https://a.example") (KeyDownUrl key) = Some w' ->
        sent w' = sent (formWorld [] "" "https://a.example")
        /\ inflight w' = inflight (formWorld [] "" "https://a.example")
        /\ submitting (ui w') = submitting (ui (formWorld [] "" "https://a.example"))).
Proof.
  apply (C7_invalid_form_sends_nothing (H:=RefHost) (formWorld [] "" "https://a.example")).
  left. reflexivity.
Defined.

(** C10.  A submission that passes validation, by the button or by Enter in
    the URL field, sends exactly one request, a write whose [title], [url],
    [description] and [tag] are the four cells of the render as they stand:
    nothing is trimmed. *)
Theorem C10_write_carries_fields_untrimmed
    {H : Host} (w w' : World) (e : Event) :
  e = ClickSubmit \/ e = KeyDownUrl "Enter" ->
  Js.trim (title (ui w)) <> "" /\ Js.trim (url (ui w)) <> "" ->
  step w e = Some w' ->
  exists req k,
    inflight w' = inflight w ++ [(req, k)]
    /\ sent w' = sent w ++ [req]
    /\ writtenFields req
       = Some {| Fields.title := title (ui w); Fields.url := url (ui w);
                 Fields.description := description (ui w); Fields.tag := tag (ui w) |}.
Proof.
  intros He Hvalid Hs. apply invalidForm_false in Hvalid.
  destruct (submit_turn w w' e He Hs) as [Hshow ->].
  destruct (showsPanel_user _ Hshow) as [u Hu].
  rewrite (run_handleSubmit_valid w Hvalid), Hu.
  destruct (editId (ui w)) as [[|c i]|]; simpl; eexists; eexists; repeat split.
Qed.

(** C10 on a padded title and URL: the insert carries the padding. *)
Lemma C10_write_carries_fields_untrimmed_witness :
  exists w' req k,
    step (H:=RefHost) (formWorld [] "  A " " https://a.example ") (KeyDownUrl "Enter") = Some w'
    /\ inflight w' = inflight (formWorld [] "  A " " https://a.example ") ++ [(req, k)]
    /\ sent w' = sent (formWorld [] "  A " " https://a.example ") ++ [req]
    /\ writtenFields req
       = Some {| Fields.title := "  A "; Fields.url := " https://a.example ";
                 Fields.description := ""; Fields.tag := "" |}.
Proof.
  destruct (step (H:=RefHost) (formWorld [] "  A " " https://a.example ") (KeyDownUrl "Enter"))
    as [w'|] eqn:Hs; [|vm_compute in Hs; discriminate Hs].
  destruct (C10_write_carries_fields_untrimmed (H:=RefHost)
              (formWorld [] "  A " " https://a.example ") w' (KeyDownUrl "Enter")
              (or_intror eq_refl)) as (req & k & Hi & Hsent & Hf).
  - split; discriminate.
  - exact Hs.
  - exists w', req, k. repeat split; assumption.
Defined.

(* ================================================================== *)
(** * Who writes the mirror *)
(* ================================================================== *)

Section MirrorWriters.
Context {H : Host}.

Lemma run_fetchBookmarks_mirror (w : World) :
  bookmarks (ui (run fetchBookmarks w)) = bookmarks (ui w).
Proof.
  unfold run, fetchBookmarks. destruct (Js.truthy_opt (userIdRef (ui w))); reflexivity.
Qed.

Lemma afterSetUser_mirror (before : option User.t) (w : World) :
  bookmarks (ui (afterSetUser before w)) = bookmarks (ui w).
Proof.
  unfold afterSetUser, userEffect. simpl.
  destruct before, (user (ui w)) as [u|]; try reflexivity;
    unfold run, seq, set, fetchBookmarks; simpl;
    destruct (Js.truthy (User.id u)); reflexivity.
Qed.

(** The code after the [await] of a write or of the delete request never
    stores into the mirror. *)
Lemma resume_mirror (k : Cont) (resp : Response) (w : World) :
  k <> fetchBookmarks_k ->
  bookmarks (ui (run (resume k resp) w)) = bookmarks (ui w).
Proof.
  intros Hk. destruct k; try congruence; cbn [resume];
    [unfold handleSubmit_update_resume | unfold handleSubmit_insert_resume
    | unfold handleDelete_resume]; destruct (error resp); try reflexivity.
  unfold run, seq, toast, set, fetchBookmarks. simpl.
  destruct (Js.truthy_opt (userIdRef (ui w))); reflexivity.
Qed.

Lemma run_handleSubmit_mirror (r : State) (w : World) :
  bookmarks (ui (run (handleSubmit r) w)) = bookmarks (ui w).
Proof.
  unfold run. destruct (invalidForm r) eqn:E.
  - now rewrite (handleSubmit_invalid _ _ E).
  - rewrite (handleSubmit_valid _ _ E).
    destruct (editId r) as [[|c i]|], (user r); reflexivity.
Qed.

(** The events whose handler can store into the mirror. *)
Lemma mirror_writers (w w' : World) (e : Event) :
  step w e = Some w' ->
  bookmarks (ui w') = bookmarks (ui w)
  \/ (exists payload, e = Postgres payload)
  \/ e = ClickConfirmDelete
  \/ (exists n resp req, e = Settle n resp
        /\ nth_error (inflight w) n = Some (req, fetchBookmarks_k)).
Proof.
  unfold step. destruct (dispatch e w) as [w0|] eqn:D; [|discriminate].
  intros E. injection E as <-.
  destruct (render_keeps w0) as [-> _].
  destruct e; simpl in D;
    try (right; left; eexists; reflexivity);
    try (right; right; left; reflexivity);
    repeat match type of D with
      | (if ?c then _ else _) = _ => destruct c; [|discriminate D]
      end;
    try (injection D as <-; left; reflexivity).
  - injection D as <-. left. now rewrite afterSetUser_mirror.
  - injection D as <-. left. now rewrite afterSetUser_mirror.
  - destruct (nth_error (inflight w) n) as [[req k]|] eqn:Hn; [|discriminate].
    injection D as <-.
    destruct (match k with fetchBookmarks_k => true | _ => false end) eqn:Hk.
    + destruct k; try discriminate. right. right. right. eauto.
    + left. rewrite resume_mirror; [reflexivity|]. intros ->. discriminate.
  - destruct (timers w); [discriminate|]. injection D as <-. left. reflexivity.
  - injection D as <-. left.
    destruct (String.eqb key "Enter"); [apply run_handleSubmit_mirror | reflexivity].
  - injection D as <-. left. apply run_handleSubmit_mirror.
Qed.

(** The turn in which the insert of [handleSubmit] is answered. *)
Lemma insert_answer_turn (w : World) (n : nat) (req : Request) (resp : Response) :
  nth_error (inflight w) n = Some (req, handleSubmit_insert_k) ->
  exists w', step w (Settle n resp) = Some w'
    /\ bookmarks (ui w') = bookmarks (ui w)
    /\ inflight w' = removeNth n (inflight w)
    /\ sent w' = sent w
    /\ submitting (ui w') = false.
Proof.
  intros Hn. eexists. split.
  - apply step_dispatch. simpl. rewrite Hn. reflexivity.
  - cbn [resume]. unfold handleSubmit_insert_resume.
    destruct (error resp); repeat split.
Qed.

End MirrorWriters.

(* ================================================================== *)
(** * The submitting flag *)
(* ================================================================== *)

Section SubmittingFlag.
Context {H : Host}.

(** The button is gated by the flag. *)
Lemma button_gated_while_submitting (w : World) :
  submitting (ui w) = true -> step w ClickSubmit = None.
Proof.
  intros Hsub. unfold step. simpl. unfold submitDisabled. rewrite Hsub.
  now rewrite orb_true_r, andb_false_r.
Qed.

(** Enter in the URL field is not: on a valid form it starts a write
    whatever the flag says. *)
Lemma enter_key_not_gated (w : World) :
  showsPanel (ui w) = true -> invalidForm (ui w) = false ->
  exists w' req k,
    step w (KeyDownUrl "Enter") = Some w'
    /\ inflight w' = inflight w ++ [(req, k)]
    /\ sent w' = sent w ++ [req]
    /\ isWrite req = true.
Proof.
  intros Hshow Hvalid. destruct (showsPanel_user _ Hshow) as [u Hu].
  assert (Hs : step w (KeyDownUrl "Enter")
               = Some (run filterSortEffect (run (handleSubmit (ui w)) w)))
    by (apply step_dispatch; simpl; rewrite Hshow; reflexivity).
  rewrite (run_handleSubmit_valid w Hvalid), Hu in Hs.
  destruct (editId (ui w)) as [[|c i]|]; simpl in Hs;
    (eexists; eexists; eexists; split; [exact Hs|]; repeat split).
Qed.

End SubmittingFlag.

(** C8 fails on the code.  From the initial world: sign in, open the
    creation panel, type a title and a URL, press Enter in the URL field.
    The insert is now in flight, the flag is set and the button cannot be
    pressed; a second Enter is accepted all the same and sends a second
    insert.  When the first insert is then answered the flag is cleared
    while the second is still in flight. *)
Theorem C8_enter_key_resubmits_while_in_flight :
  let entry := {| Fields.title := "A"; Fields.url := "https://a.example";
                  Fields.description := ""; Fields.tag := "" |} in
  exists w1 w2 w3,
    steps (H:=RefHost) initialWorld
      [GetSessionResolved (Some alice); ClickAdd; ChangeTitle "A";
       ChangeUrl "https://a.example"; KeyDownUrl "Enter"] = Some w1
    /\ submitting (ui w1) = true
    /\ inflight w1 = [(fetchQuery, fetchBookmarks_k); (Insert entry "u-1", handleSubmit_insert_k)]
    /\ step (H:=RefHost) w1 ClickSubmit = None
    /\ step (H:=RefHost) w1 (KeyDownUrl "Enter") = Some w2
    /\ sent w2 = [fetchQuery; Insert entry "u-1"; Insert entry "u-1"]
    /\ inflight w2 = [(fetchQuery, fetchBookmarks_k);
                      (Insert entry "u-1", handleSubmit_insert_k);
                      (Insert entry "u-1", handleSubmit_insert_k)]
    /\ step (H:=RefHost) w2 (Settle 1 (failed "offline")) = Some w3
    /\ submitting (ui w3) = false
    /\ inflight w3 = [(fetchQuery, fetchBookmarks_k);
                      (Insert entry "u-1", handleSubmit_insert_k)].
Proof.
  intros entry. subst entry. eexists. eexists. eexists.
  split; [vm_compute; reflexivity|].
  split; [reflexivity|].
  split; [reflexivity|].
  split; [vm_compute; reflexivity|].
  split; [vm_compute; reflexivity|].
  split; [reflexivity|].
  split; [reflexivity|].
  split; [vm_compute; reflexivity|].
  split; reflexivity.
Qed.

(* ================================================================== *)
(** * Invariants of the event loop *)
(* ================================================================== *)

Section Invariants.
Context {H : Host}.

(** After every turn [filtered] is the derived view of the four cells it
    depends on. *)
Lemma reachable_filtered (w : World) :
  reachable w ->
  filtered (ui w)
  = derived_view (bookmarks (ui w)) (search (ui w)) (activeTag (ui w)) (sortBy (ui w)).
Proof.
  intros [|w0 w1 e _ Hs]; [reflexivity|].
  unfold step in Hs. destruct (dispatch e w0) as [w2|]; [|discriminate].
  injection Hs as <-. reflexivity.
Qed.

Lemma userEffect_identity (w : World) (u : User.t) :
  user (ui w) = Some u ->
  user (ui (userEffect w)) = Some u
  /\ userIdRef (ui (userEffect w)) = Some (User.id u)
  /\ channel (userEffect w) = Some (User.id u).
Proof.
  intros Hu. unfold userEffect. simpl. rewrite Hu.
  unfold run, seq, set, fetchBookmarks. simpl.
  destruct (Js.truthy (User.id u)); simpl; auto.
Qed.

Lemma afterSetUser_identity (before : option User.t) (w : World) (u : User.t) :
  user (ui w) = Some u ->
  user (ui (afterSetUser before w)) = Some u
  /\ userIdRef (ui (afterSetUser before w)) = Some (User.id u)
  /\ channel (afterSetUser before w) = Some (User.id u).
Proof.
  intros Hu. unfold afterSetUser. rewrite Hu.
  destruct before; now apply userEffect_identity.
Qed.

Lemma resume_identity (k : Cont) (resp : Response) (w : World) :
  user (ui (run (resume k resp) w)) = user (ui w)
  /\ userIdRef (ui (run (resume k resp) w)) = userIdRef (ui w)
  /\ channel (run (resume k resp) w) = channel w.
Proof.
  destruct k; cbn [resume];
    [unfold fetchBookmarks_resume | unfold handleSubmit_update_resume
    | unfold handleSubmit_insert_resume | unfold handleDelete_resume];
    destruct (error resp); try (repeat split; fail).
  unfold run, seq, toast, set, fetchBookmarks. simpl.
  destruct (Js.truthy_opt (userIdRef (ui w))); repeat split.
Qed.

Lemma run_handleSubmit_identity (r : State) (w : World) :
  user (ui (run (handleSubmit r) w)) = user (ui w)
  /\ userIdRef (ui (run (handleSubmit r) w)) = userIdRef (ui w)
  /\ channel (run (handleSubmit r) w) = channel w.
Proof.
  unfold run. destruct (invalidForm r) eqn:E.
  - rewrite (handleSubmit_invalid _ _ E). repeat split.
  - rewrite (handleSubmit_valid _ _ E).
    destruct (editId r) as [[|c i]|], (user r); repeat split.
Qed.

(** Only the two authentication events touch the user, the ref or the
    channel. *)
Lemma dispatch_identity (e : Event) (w w0 : World) :
  dispatch e w = Some w0 ->
  (exists session_user, e = GetSessionResolved session_user \/ e = AuthStateChange session_user)
  \/ (user (ui w0) = user (ui w)
      /\ userIdRef (ui w0) = userIdRef (ui w)
      /\ channel w0 = channel w).
Proof.
  intros D. destruct e; simpl in D;
    try (left; eexists; (left; reflexivity) || (right; reflexivity)); right;
    repeat match type of D with
      | context [channel w] => destruct (channel w) eqn:Hc; [|discriminate D]
      | (if ?c then _ else _) = _ => destruct c; [|discriminate D]
      end;
    try (injection D as <-; simpl; try rewrite Hc; repeat split; fail).
  - destruct (nth_error (inflight w) n) as [[req k]|]; [|discriminate].
    injection D as <-.
    apply (resume_identity k r (withInflight (removeNth n (inflight w)) w)).
  - destruct (timers w); [discriminate|]. injection D as <-. repeat split.
  - injection D as <-.
    destruct (String.eqb key "Enter"); [apply run_handleSubmit_identity | auto].
  - injection D as <-. apply run_handleSubmit_identity.
  - destruct (deleteTarget (ui w)); [|discriminate].
    destruct (showsDeleteConfirm (ui w)); [|discriminate].
    injection D as <-. repeat split.
Qed.

(** Whenever a user is signed in, the ref holds that user's identifier and
    the channel is subscribed for it. *)
Lemma reachable_identity (w : World) (u : User.t) :
  reachable w -> user (ui w) = Some u ->
  userIdRef (ui w) = Some (User.id u) /\ channel w = Some (User.id u).
Proof.
  intros Hr. revert u. induction Hr as [|w w' e Hr IH Hs]; intros u Hu; [discriminate|].
  unfold step in Hs. destruct (dispatch e w) as [w0|] eqn:D; [|discriminate].
  injection Hs as <-. rewrite run_filterSortEffect in *.
  change (user (ui w0) = Some u) in Hu.
  change (userIdRef (ui w0) = Some (User.id u) /\ channel w0 = Some (User.id u)).
  destruct (dispatch_identity e w w0 D) as [[su [-> | ->]] | (Eu & Er & Ec)].
  - simpl in D. injection D as <-. destruct su as [v|].
    + destruct (afterSetUser_identity (user (ui w))
                  (run (set (setUser (Some v));; set (setLoading false)) w) v eq_refl)
        as (Hv & Href & Hch).
      rewrite Hv in Hu. injection Hu as <-. auto.
    + unfold afterSetUser in Hu. simpl in Hu.
      destruct (user (ui w)); simpl in Hu; discriminate.
  - simpl in D. injection D as <-. destruct su as [v|].
    + destruct (afterSetUser_identity (user (ui w))
                  (run (set (setUser (Some v))) w) v eq_refl)
        as (Hv & Href & Hch).
      rewrite Hv in Hu. injection Hu as <-. auto.
    + unfold afterSetUser in Hu. simpl in Hu.
      destruct (user (ui w)); simpl in Hu; discriminate.
  - rewrite Eu in Hu. rewrite Er, Ec. now apply IH.
Qed.

(** So, for a signed-in user with a non-empty identifier, [fetchBookmarks]
    passes its guard. *)
Lemma signed_in_ref_truthy (w : World) (u : User.t) :
  reachable w -> user (ui w) = Some u -> User.id u <> "" ->
  Js.truthy_opt (userIdRef (ui w)) = true.
Proof.
  intros Hr Hu Hne. destruct (reachable_identity w u Hr Hu) as [-> _].
  simpl. now apply truthy_true.
Qed.

End Invariants.

(* ================================================================== *)
(** * The specification's scenarios on the reference host *)
(* ================================================================== *)

(** Scenario 1: no query, tag ["All"], ["newest"]: the mirror as it is. *)
Example scenario_newest :
  derived_view (H:=RefHost) [bm2; bm1] "" "All" newest = [bm2; bm1].
Proof. reflexivity. Qed.

(** Scenario 2: ["alpha"] puts title A before title B. *)
Example scenario_alpha :
  derived_view (H:=RefHost) [bm2; bm1] "" "All" alpha = [bm1; bm2].
Proof. reflexivity. Qed.

(** Scenario 3: tag ["Design"] keeps record 2 only. *)
Example scenario_tag :
  derived_view (H:=RefHost) [bm2; bm1] "" "Design" newest = [bm2].
Proof. reflexivity. Qed.

(** The query is matched against the note too, ignoring case. *)
Example scenario_query_in_note :
  derived_view (H:=RefHost) [bm2; bm1] "WHEEL" "All" newest = [bm2].
Proof. reflexivity. Qed.

(** The signed-in session used above is what the event loop reaches from
    the initial world once the session resolves and the first fetch is
    answered. *)
Example mirrorWorld_reached :
  steps (H:=RefHost) initialWorld
    [GetSessionResolved (Some alice); Settle 0 (succeeded [bm2; bm1])]
  = Some (mirrorWorld [bm2; bm1]).
Proof. reflexivity. Qed.

(* ================================================================== *)
(** * More on the realtime reducer *)
(* ================================================================== *)

Lemma has_id_iff (i : string) (b : Bookmark.t) :
  has_id i b = true <-> Bookmark.id b = i.
Proof. unfold has_id. apply String.eqb_eq. Qed.

Lemma has_id_false_iff (i : string) (b : Bookmark.t) :
  has_id i b = false <-> Bookmark.id b <> i.
Proof. unfold has_id. apply String.eqb_neq. Qed.

Lemma absent_has_id (i : string) (m : list Bookmark.t) :
  ~ In i (map Bookmark.id m) <-> forall b, In b m -> has_id i b = false.
Proof.
  split.
  - intros Hi b Hb. apply has_id_false_iff. intros E. apply Hi.
    rewrite <- E. now apply in_map.
  - intros Hm Hi. apply in_map_iff in Hi as [b [E Hb]].
    apply (Hm b) in Hb. apply has_id_false_iff in Hb. contradiction.
Qed.

(** Filtering out an identifier the list does not hold is the identity. *)
Lemma delete_absent (i : string) (m : list Bookmark.t) :
  ~ In i (map Bookmark.id m) -> filter (fun b => negb (has_id i b)) m = m.
Proof.
  rewrite absent_has_id. intros Hm. induction m as [|b m IH]; simpl; [reflexivity|].
  rewrite (Hm b (or_introl eq_refl)). simpl. f_equal. apply IH.
  intros c Hc. apply Hm. now right.
Qed.

(** X1.  A delete event leaves no record with the identifier it names;
    for an identifier the mirror does not hold it changes nothing, and
    applied a second time it changes nothing more. *)
Theorem X1_delete_event_absent_and_idempotent (i : string) (prev : list Bookmark.t) :
  ~ In i (map Bookmark.id (applyPayload (DELETE i) prev))
  /\ (~ In i (map Bookmark.id prev) -> applyPayload (DELETE i) prev = prev)
  /\ applyPayload (DELETE i) (applyPayload (DELETE i) prev) = applyPayload (DELETE i) prev.
Proof.
  simpl. split; [apply removed_absent|]. split.
  - apply delete_absent.
  - apply delete_absent, removed_absent.
Qed.

(** X1 at the mirror [[2; 1]]: a delete event for an identifier it lacks. *)
Lemma X1_delete_event_absent_and_idempotent_witness :
  applyPayload (DELETE "3") [bm2; bm1] = [bm2; bm1].
Proof.
  apply (proj1 (proj2 (X1_delete_event_absent_and_idempotent "3" [bm2; bm1]))).
  simpl. intros [E | [E | []]]; discriminate.
Defined.

(** X2.  The insert event of a record whose identifier is new to the
    mirror, followed by the delete event for that identifier, gives back the
    mirror as it was. *)
Theorem X2_insert_then_delete_restores (new : Bookmark.t) (prev : list Bookmark.t) :
  ~ In (Bookmark.id new) (map Bookmark.id prev) ->
  applyPayload (DELETE (Bookmark.id new)) (applyPayload (INSERT new) prev) = prev.
Proof.
  intros Hfresh. simpl. unfold has_id at 1. rewrite String.eqb_refl. simpl.
  now apply delete_absent.
Qed.

Lemma X2_insert_then_delete_restores_witness :
  applyPayload (DELETE "3") (applyPayload (INSERT bm3) [bm2; bm1]) = [bm2; bm1].
Proof.
  apply (X2_insert_then_delete_restores bm3 [bm2; bm1]).
  simpl. intros [E | [E | []]]; discriminate.
Defined.

(** X3.  An update event for an identifier the mirror does not hold changes
    nothing (it never adds the record); the same event applied twice is as
    applied once; and of two update events for one identifier the later one
    alone decides the mirror. *)
Theorem X3_update_event_absent_idempotent_last_wins
    (new later : Bookmark.t) (prev : list Bookmark.t) :
  (~ In (Bookmark.id new) (map Bookmark.id prev) -> applyPayload (UPDATE new) prev = prev)
  /\ applyPayload (UPDATE new) (applyPayload (UPDATE new) prev) = applyPayload (UPDATE new) prev
  /\ (Bookmark.id later = Bookmark.id new ->
      applyPayload (UPDATE later) (applyPayload (UPDATE new) prev)
      = applyPayload (UPDATE later) prev).
Proof.
  simpl. split; [|split].
  - rewrite absent_has_id. intros Hm. rewrite <- (map_id prev) at 2.
    apply map_ext_in. intros b Hb. now rewrite (Hm b Hb).
  - rewrite map_map. apply map_ext. intros b.
    destruct (has_id (Bookmark.id new) b) eqn:E; [|now rewrite E].
    unfold has_id. now rewrite String.eqb_refl.
  - intros Hid. rewrite map_map. apply map_ext. intros b. rewrite Hid.
    destruct (has_id (Bookmark.id new) b) eqn:E; [|now rewrite E].
    unfold has_id. now rewrite String.eqb_refl.
Qed.

Lemma X3_update_event_absent_idempotent_last_wins_witness :
  applyPayload (UPDATE bm3) [bm2; bm1] = [bm2; bm1].
Proof.
  apply (proj1 (X3_update_event_absent_idempotent_last_wins bm3 bm3 [bm2; bm1])).
  simpl. intros [E | [E | []]]; discriminate.
Defined.

Lemma update_keeps_ids (new : Bookmark.t) (prev : list Bookmark.t) :
  map Bookmark.id (applyPayload (UPDATE new) prev) = map Bookmark.id prev.
Proof.
  simpl. rewrite map_map. apply map_ext. intros b.
  destruct (has_id (Bookmark.id new) b) eqn:E; [|reflexivity].
  symmetry. now apply has_id_iff.
Qed.

Lemma countId_absent (i : string) (m : list Bookmark.t) :
  countId i m = 0 <-> ~ In i (map Bookmark.id m).
Proof.
  unfold countId. rewrite absent_has_id. induction m as [|b m IH]; simpl.
  - split; [intros _ c [] | reflexivity].
  - destruct (has_id i b) eqn:E; simpl.
    + split; [discriminate|]. intros Hm. rewrite (Hm b (or_introl eq_refl)) in E.
      discriminate.
    + rewrite IH. split.
      * intros Hm c [<- | Hc]; auto.
      * intros Hm c Hc. apply Hm. now right.
Qed.

(** X4.  Identifiers stay unique under delete and update events, and under
    an insert event exactly when the record's identifier is new to the
    mirror: the insert handler does not look for the identifier, so the
    event of a record the mirror already holds leaves it there twice. *)
Theorem X4_unique_ids_under_events (payload : Payload) (prev : list Bookmark.t) :
  NoDup (map Bookmark.id prev) ->
  match payload with
  | INSERT new =>
      (NoDup (map Bookmark.id (applyPayload payload prev))
       <-> ~ In (Bookmark.id new) (map Bookmark.id prev))
      /\ countId (Bookmark.id new) (applyPayload payload prev)
         = S (countId (Bookmark.id new) prev)
  | DELETE _ => NoDup (map Bookmark.id (applyPayload payload prev))
  | UPDATE _ => NoDup (map Bookmark.id (applyPayload payload prev))
  end.
Proof.
  intros Hnd. destruct payload as [new | i | new].
  - split.
    + simpl. rewrite NoDup_cons_iff. tauto.
    + unfold countId. simpl. unfold has_id at 1. now rewrite String.eqb_refl.
  - simpl. induction prev as [|b prev IH]; simpl; [constructor|].
    simpl in Hnd. apply NoDup_cons_iff in Hnd as [Hb Hnd].
    destruct (has_id i b); simpl; [now apply IH|].
    constructor; [|now apply IH].
    intros Hin. apply Hb. apply in_map_iff in Hin as [c [E Hc]].
    apply filter_In in Hc as [Hc _]. rewrite <- E. now apply in_map.
  - now rewrite update_keeps_ids.
Qed.

(** X4 at the mirror [[2; 1]]: the insert event of record 2 doubles it. *)
Lemma X4_unique_ids_under_events_witness :
  ~ NoDup (map Bookmark.id (applyPayload (INSERT bm2) [bm2; bm1]))
  /\ countId "2" (applyPayload (INSERT bm2) [bm2; bm1]) = 2.
Proof.
  destruct (X4_unique_ids_under_events (INSERT bm2) [bm2; bm1]) as [Hiff Hcount].
  - repeat constructor; simpl; intuition discriminate.
  - split; [|exact Hcount].
    intros Hnd. apply Hiff in Hnd. apply Hnd. now left.
Defined.

(* ================================================================== *)
(** * More on the derived view *)
(* ================================================================== *)

Lemma insert_last {A : Type} (cmp : A -> A -> Z) (x : A) (l : list A) :
  Forall (fun y => (0 < cmp x y)%Z) l -> Js.insert cmp x l = l ++ [x].
Proof.
  induction 1 as [|y l Hy _ IH]; simpl; [reflexivity|].
  destruct (cmp x y <=? 0)%Z eqn:E; [apply Z.leb_le in E; lia|].
  now rewrite IH.
Qed.

Lemma StronglySorted_filter {A : Type} (R : A -> A -> Prop) (f : A -> bool) (l : list A) :
  StronglySorted R l -> StronglySorted R (filter f l).
Proof.
  induction 1 as [|x l Hs IH Hx]; simpl; [constructor|].
  destruct (f x); [|exact IH]. constructor; [exact IH|].
  rewrite Forall_forall in *. intros y Hy. apply filter_In in Hy as [Hy _]. auto.
Qed.

Section ViewOrder.
Context {H : Host}.

(** Sorting by creation time a list that is strictly newest first
    reverses it. *)
Lemma sort_newest_first (l : list Bookmark.t) :
  StronglySorted createdAfter l -> Js.sort byCreatedAt l = rev l.
Proof.
  induction 1 as [|x l Hs IH Hx]; [reflexivity|].
  change (Js.sort byCreatedAt (x :: l))
    with (Js.insert (Js.SortCompare byCreatedAt) x (Js.sort byCreatedAt l)).
  rewrite IH. simpl. apply insert_last.
  apply Forall_rev. rewrite Forall_forall in *. intros y Hy.
  specialize (Hx y Hy). unfold createdAfter in Hx.
  unfold Js.SortCompare, byCreatedAt, Js.sub.
  destruct (getTime (Bookmark.created_at x)), (getTime (Bookmark.created_at y));
    try contradiction; lia.
Qed.

Lemma existsb_filter_nil {A : Type} (f : A -> bool) (l : list A) :
  existsb f l = true <-> filter f l <> [].
Proof.
  induction l as [|x l IH]; simpl.
  - split; [discriminate | congruence].
  - destruct (f x); simpl; [split; [discriminate | reflexivity] | exact IH].
Qed.

Lemma tag_option_not_All (t : string) : In t TAG_OPTIONS -> String.eqb t "All" = false.
Proof.
  unfold TAG_OPTIONS. simpl. intros Ht.
  repeat (destruct Ht as [<- | Ht]; [reflexivity|]). contradiction.
Qed.

End ViewOrder.

(** X5.  The sorts keep ties in mirror order: under ["alpha"] the records
    that share a title, [localeCompare] being a consistent comparator, and
    under ["oldest"] the records that share a creation timestamp, the
    mirror's timestamps being dates, come in the order they have under
    ["newest"]. *)
Theorem X5_sorted_views_keep_ties_in_mirror_order
    {H : Host} (R : list Bookmark.t) (Q T : string) :
  (consistent_on (fun _ : string => True) localeCompare ->
   forall t,
     filter (fun b => String.eqb (Bookmark.title b) t) (derived_view R Q T alpha)
     = filter (fun b => String.eqb (Bookmark.title b) t) (derived_view R Q T newest))
  /\ (Forall hasValidDate R ->
      forall s,
        filter (fun b => String.eqb (Bookmark.created_at b) s) (derived_view R Q T oldest)
        = filter (fun b => String.eqb (Bookmark.created_at b) s) (derived_view R Q T newest)).
Proof.
  unfold derived_view. simpl. split.
  - intros Hloc t. apply sort_stable. intros x y Hx Hy.
    apply String.eqb_eq in Hx, Hy. unfold Js.SortCompare, byTitle. rewrite Hx, Hy.
    pose proof (cmp_total _ _ Hloc t t I I). lia.
  - intros _ s. apply sort_stable. intros x y Hx Hy.
    apply String.eqb_eq in Hx, Hy. unfold Js.SortCompare, byCreatedAt, Js.sub.
    rewrite Hx, Hy. destruct (getTime s); lia.
Qed.

(** X5 on the reference host, at a mirror in which records 4 and 1 share
    the title ["A"] and the creation timestamp: both sorts show 4 before
    1, as the mirror does. *)
Lemma X5_sorted_views_keep_ties_in_mirror_order_witness :
  filter (fun b => String.eqb (Bookmark.title b) "A")
    (derived_view (H:=RefHost) [bm4; bm2; bm1] "" "All" alpha) = [bm4; bm1]
  /\ filter (fun b => String.eqb (Bookmark.created_at b) "2024-01-01T00:00:00Z")
       (derived_view (H:=RefHost) [bm4; bm2; bm1] "" "All" oldest) = [bm4; bm1].
Proof.
  destruct (X5_sorted_views_keep_ties_in_mirror_order (H:=RefHost) [bm4; bm2; bm1] "" "All")
    as [Halpha Holdest].
  split.
  - rewrite (Halpha ref_localeCompare_consistent "A"). reflexivity.
  - rewrite (Holdest (ltac:(repeat constructor; discriminate)) "2024-01-01T00:00:00Z").
    reflexivity.
Defined.

(** X6.  When the mirror is strictly newest first (each record created
    later than all that follow it), the view under ["oldest"] is the view
    under ["newest"] reversed. *)
Theorem X6_oldest_reverses_newest
    {H : Host} (R : list Bookmark.t) (Q T : string) :
  StronglySorted createdAfter R ->
  derived_view R Q T oldest = rev (derived_view R Q T newest).
Proof.
  intros Hs. unfold derived_view. simpl. apply sort_newest_first.
  rewrite filters_as_one. now apply StronglySorted_filter.
Qed.

Lemma X6_oldest_reverses_newest_witness :
  derived_view (H:=RefHost) [bm3; bm2; bm1] "" "All" oldest
  = rev (derived_view (H:=RefHost) [bm3; bm2; bm1] "" "All" newest).
Proof.
  apply (X6_oldest_reverses_newest (H:=RefHost) [bm3; bm2; bm1] "" "All").
  repeat constructor; vm_compute; reflexivity.
Defined.

(** X7.  The tag strip and the tag filter agree: a label other than
    ["All"] is in [allTags] exactly when it is one of the six options and
    the view filtered by it alone is not empty.  A tag outside the options
    gets no button, whatever the mirror holds. *)
Theorem X7_tag_strip_matches_tag_filter
    {H : Host} (r : State) (t : string) (k : SortKey) :
  In t (allTags r)
  <-> t = "All" \/ (In t TAG_OPTIONS /\ derived_view (bookmarks r) "" t k <> []).
Proof.
  unfold allTags.
  match goal with
  | |- In t ("All" :: filter ?f TAG_OPTIONS) <-> ?rhs =>
      change ("All" = t \/ In t (filter f TAG_OPTIONS) <-> rhs)
  end.
  rewrite filter_In.
  assert (Hview : In t TAG_OPTIONS ->
            (existsb (fun b => match Bookmark.tag b with
                               | Some t' => String.eqb t' t
                               | None => false
                               end) (bookmarks r) = true
             <-> derived_view (bookmarks r) "" t k <> [])).
  { intros Ht. unfold derived_view, searchFilter, tagFilter. simpl.
    rewrite (tag_option_not_All t Ht). simpl.
    rewrite (existsb_filter_nil (hasTag t)). split.
    - intros Hne Hnil. apply Hne. apply Permutation_nil.
      rewrite <- Hnil. symmetry. apply sortStage_perm.
    - intros Hne Hnil. apply Hne. rewrite Hnil. now destruct k. }
  split.
  - intros [E | [Ht He]]; [now left | right]. split; [exact Ht | now apply Hview].
  - intros [E | [Ht Hne]]; [now left | right]. split; [exact Ht | now apply Hview].
Qed.

(* ================================================================== *)
(** * What a run leaves in the world *)
(* ================================================================== *)

Section RunShape.
Context {H : Host}.

Lemma startEffects_shape (effects : list Effect) (w : World) :
  ui (fold_left (fun w' e => startEffect e w') effects w) = ui w
  /\ inflight (fold_left (fun w' e => startEffect e w') effects w)
     = inflight w ++ callsOf effects
  /\ timers (fold_left (fun w' e => startEffect e w') effects w)
     = timers w + timeoutsOf effects
  /\ channel (fold_left (fun w' e => startEffect e w') effects w) = channel w
  /\ sent (fold_left (fun w' e => startEffect e w') effects w)
     = sent w ++ map fst (callsOf effects).
Proof.
  revert w. induction effects as [|e effects IH]; intros w.
  - unfold callsOf, timeoutsOf. simpl. rewrite !app_nil_r. repeat split. lia.
  - simpl fold_left. destruct (IH (startEffect e w)) as (-> & -> & -> & -> & ->).
    unfold callsOf, timeoutsOf.
    destruct e; simpl; rewrite <- ?app_assoc; repeat split; lia.
Qed.

(** The world after a run: the handler's state, the calls it started after
    those in flight, its timers added. *)
Lemma run_shape (a : Action) (w : World) :
  ui (run a w) = fst (a (ui w))
  /\ inflight (run a w) = inflight w ++ callsOf (snd (a (ui w)))
  /\ timers (run a w) = timers w + timeoutsOf (snd (a (ui w)))
  /\ channel (run a w) = channel w
  /\ sent (run a w) = sent w ++ map fst (callsOf (snd (a (ui w)))).
Proof.
  unfold run. destruct (a (ui w)) as [s effects]. simpl.
  apply (startEffects_shape effects (withUi s w)).
Qed.

Lemma step_inv (w w' : World) (e : Event) :
  step w e = Some w' ->
  exists w0, dispatch e w = Some w0 /\ w' = run filterSortEffect w0.
Proof.
  unfold step. destruct (dispatch e w) as [w0|]; [|discriminate].
  intros E. injection E as <-. eauto.
Qed.

End RunShape.

(* ================================================================== *)
(** * More invariants of the event loop *)
(* ================================================================== *)

(** Case analysis on the turn [D : dispatch e w = Some w0]: one goal per
    way the event's handler can run, with [w0] replaced by its value. *)
Ltac dispatch_cases D :=
  simpl in D;
  repeat match type of D with
    | (if ?c then _ else _) = Some _ =>
        let G := fresh "G" in destruct c eqn:G; [|discriminate D]
    | (let (_, _) := ?p in _) = Some _ => destruct p
    | context [match ?c with _ => _ end] =>
        let G := fresh "G" in destruct c eqn:G; try discriminate D
    end;
  injection D as <-.

Section HandlerStates.
Context {H : Host}.

Lemma showsPanel_open (r : State) : showsPanel r = true -> panelOpen r = true.
Proof. unfold showsPanel. intros E. now apply andb_true_iff in E. Qed.

(** The state [handleSubmit] leaves, and the calls it starts. *)
Lemma handleSubmit_shape (r s : State) :
  (invalidForm r = true
   /\ handleSubmit r s = (s, []))
  \/ (invalidForm r = false
      /\ fst (handleSubmit r s) = setSubmitting true s
      /\ timeoutsOf (snd (handleSubmit r s)) = 0
      /\ ((exists req k, callsOf (snd (handleSubmit r s)) = [(req, k)]
                         /\ isSubmitCont k = true /\ isWrite req = true)
          \/ (user r = None /\ callsOf (snd (handleSubmit r s)) = []))).
Proof.
  destruct (invalidForm r) eqn:E.
  - left. split; [reflexivity|]. now apply handleSubmit_invalid.
  - right. split; [reflexivity|]. rewrite (handleSubmit_valid _ _ E).
    destruct (editId r) as [[|c i]|], (user r); simpl; repeat split; eauto 8.
Qed.

(** The state the code after an [await] leaves. *)
Lemma resume_state (k : Cont) (resp : Response) (s : State) :
  fst (resume k resp s)
  = match k, error resp with
    | fetchBookmarks_k, None =>
        setBookmarks (match data resp with Some rows => rows | None => [] end) s
    | handleSubmit_update_k, None =>
        setSubmitting false (setPanelOpen false (setEditId None (setTag ""
          (setDescription "" (setUrl "" (setTitle ""
            (setToastMsg (Some "Bookmark updated ✦") s)))))))
    | handleSubmit_update_k, Some _ =>
        setSubmitting false (setToastMsg (Some "Failed to update — try again") s)
    | handleSubmit_insert_k, None =>
        setSubmitting false (setPanelOpen false (setEditId None (setTag ""
          (setDescription "" (setUrl "" (setTitle ""
            (setToastMsg (Some "Bookmark saved ✦") s)))))))
    | handleSubmit_insert_k, Some _ =>
        setSubmitting false (setToastMsg (Some "Failed to save — try again") s)
    | handleDelete_k, Some _ => setToastMsg (Some "Delete failed — restoring...") s
    | fetchBookmarks_k, Some _ => s
    | handleDelete_k, None => s
    end.
Proof.
  destruct k; cbn [resume];
    [unfold fetchBookmarks_resume | unfold handleSubmit_update_resume
    | unfold handleSubmit_insert_resume | unfold handleDelete_resume];
    destruct (error resp); try reflexivity.
  unfold seq, toast, set, fetchBookmarks. simpl.
  destruct (Js.truthy_opt (userIdRef s)); reflexivity.
Qed.

(** The effects the code after an [await] starts: one timer for each
    toast, and one fetch after a failed delete when the ref is set. *)
Lemma resume_effects (k : Cont) (resp : Response) (s : State) :
  callsOf (snd (resume k resp s))
  = match k, error resp with
    | handleDelete_k, Some _ =>
        if Js.truthy_opt (userIdRef s) then [(fetchQuery, fetchBookmarks_k)] else []
    | _, _ => []
    end
  /\ timeoutsOf (snd (resume k resp s))
     = match k, error resp with
       | fetchBookmarks_k, _ => 0
       | handleDelete_k, None => 0
       | _, _ => 1
       end.
Proof.
  destruct k; cbn [resume];
    [unfold fetchBookmarks_resume | unfold handleSubmit_update_resume
    | unfold handleSubmit_insert_resume | unfold handleDelete_resume];
    destruct (error resp); try (split; reflexivity).
  unfold seq, toast, set, fetchBookmarks. simpl.
  destruct (Js.truthy_opt (userIdRef s)); split; reflexivity.
Qed.

(** The world after the user effect had its chance to run. *)
Lemma afterSetUser_shape (before : option User.t) (w : World) :
  (afterSetUser before w = w /\ before = None /\ user (ui w) = None)
  \/ (user (ui w) = None
      /\ ui (afterSetUser before w) = ui w
      /\ inflight (afterSetUser before w) = inflight w
      /\ timers (afterSetUser before w) = timers w
      /\ channel (afterSetUser before w) = None)
  \/ (exists u, user (ui w) = Some u
      /\ ui (afterSetUser before w) = setUserIdRef (Some (User.id u)) (ui w)
      /\ inflight (afterSetUser before w)
         = inflight w ++ (if Js.truthy (User.id u)
                          then [(fetchQuery, fetchBookmarks_k)] else [])
      /\ timers (afterSetUser before w) = timers w
      /\ channel (afterSetUser before w) = Some (User.id u)).
Proof.
  unfold afterSetUser, userEffect. simpl.
  destruct (user (ui w)) as [u|] eqn:Hu.
  - right. right. exists u. split; [reflexivity|].
    unfold run, seq, set, fetchBookmarks. simpl.
    destruct before; destruct (Js.truthy (User.id u)); simpl;
      rewrite ?app_nil_r; repeat split.
  - destruct before; [right; left; repeat split | left; repeat split].
Qed.

End HandlerStates.

Section MoreInvariants.
Context {H : Host}.

Ltac ui_of_runs :=
  repeat match goal with
    | |- context [ui (run ?a ?w)] => rewrite (proj1 (run_shape a w))
    | Hp : context [ui (run ?a ?w)] |- _ => rewrite (proj1 (run_shape a w)) in Hp
    end.

Ltac panel_shown :=
  match goal with
  | G : showsPanel _ = true |- _ => apply showsPanel_open in G; congruence
  | G : showsPanel _ && _ = true |- _ =>
      apply andb_true_iff in G as [G _]; apply showsPanel_open in G; congruence
  end.

(** The closed panel keeps an empty form through every handler. *)
Lemma dispatch_form (e : Event) (w w0 : World) :
  dispatch e w = Some w0 ->
  (panelOpen (ui w) = false -> formIsReset (ui w)) ->
  panelOpen (ui w0) = false -> formIsReset (ui w0).
Proof.
  intros D IH. destruct e; dispatch_cases D.
  all: unfold formIsReset in *; simpl in *; intros Hp.
  all: try (apply IH; assumption).
  all: try discriminate.
  all: try (repeat split; reflexivity).
  all: try panel_shown.
  - destruct (afterSetUser_shape (user (ui w))
                (run (set (setUser session_user);; set (setLoading false)) w))
      as [(E & _) | [(_ & E & _) | (u & _ & E & _)]];
      rewrite E in *; simpl in *; auto.
  - destruct (afterSetUser_shape (user (ui w)) (run (set (setUser session_user)) w))
      as [(E & _) | [(_ & E & _) | (u & _ & E & _)]];
      rewrite E in *; simpl in *; auto.
  - ui_of_runs. rewrite resume_state in *.
    destruct c, (error r); simpl in *; auto; repeat split; reflexivity.
  - ui_of_runs.
    destruct (handleSubmit_shape (ui w) (ui w)) as [(_ & E) | (_ & E & _)];
      rewrite E in *; simpl in *; auto.
  - ui_of_runs.
    destruct (handleSubmit_shape (ui w) (ui w)) as [(_ & E) | (_ & E & _)];
      rewrite E in *; simpl in *; auto.
Qed.


Lemma existsb_removeNth {A : Type} (f : A -> bool) (l : list A) (n : nat) (x : A) :
  nth_error l n = Some x -> f x = false ->
  existsb f (removeNth n l) = existsb f l.
Proof.
  revert n. induction l as [|y l IH]; intros [|n]; simpl; try discriminate.
  - intros E Hx. injection E as ->. now rewrite Hx.
  - intros E Hx. now rewrite (IH n E Hx).
Qed.

Ltac shape_of_runs :=
  repeat match goal with
    | |- context [ui (run ?a ?w)] => rewrite (proj1 (run_shape a w))
    | |- context [inflight (run ?a ?w)] => rewrite (proj1 (proj2 (run_shape a w)))
    | |- context [timers (run ?a ?w)] => rewrite (proj1 (proj2 (proj2 (run_shape a w))))
    | Hp : context [ui (run ?a ?w)] |- _ => rewrite (proj1 (run_shape a w)) in Hp
    end.

(** The flag is set only while a call of [handleSubmit] is in flight. *)
Lemma dispatch_submitting (e : Event) (w w0 : World) :
  dispatch e w = Some w0 ->
  (submitting (ui w) = true -> submitPending w = true) ->
  submitting (ui w0) = true -> submitPending w0 = true.
Proof.
  intros D IH. destruct e; dispatch_cases D.
  all: unfold submitPending in *; simpl in *; intros Hp.
  all: try (apply IH; assumption).
  all: try (rewrite existsb_app, IH by assumption; reflexivity).
  - destruct (afterSetUser_shape (user (ui w))
                (run (set (setUser session_user);; set (setLoading false)) w))
      as [(E & _) | [(_ & E & Ei & _) | (u & _ & E & Ei & _)]];
      try rewrite Ei; rewrite E in *; simpl in *; auto.
    rewrite existsb_app, IH by assumption. reflexivity.
  - destruct (afterSetUser_shape (user (ui w)) (run (set (setUser session_user)) w))
      as [(E & _) | [(_ & E & Ei & _) | (u & _ & E & Ei & _)]];
      try rewrite Ei; rewrite E in *; simpl in *; auto.
    rewrite existsb_app, IH by assumption. reflexivity.
  - shape_of_runs. rewrite resume_state in Hp. simpl.
    rewrite existsb_app.
    destruct c, (error r); simpl in *; try discriminate;
      rewrite (existsb_removeNth _ _ _ _ G) by reflexivity;
      rewrite IH by assumption; reflexivity.
  - shape_of_runs.
    destruct (handleSubmit_shape (ui w) (ui w))
      as [(_ & E) | (_ & E & _ & [(req & k & Ec & Hk & _) | (Hu & _)])].
    + rewrite E in *. simpl in *. rewrite app_nil_r. auto.
    + rewrite Ec, existsb_app. simpl. rewrite Hk. now rewrite orb_true_r.
    + apply showsPanel_user in G as [u Hu']. congruence.
  - shape_of_runs.
    destruct (handleSubmit_shape (ui w) (ui w))
      as [(_ & E) | (_ & E & _ & [(req & k & Ec & Hk & _) | (Hu & _)])].
    + rewrite E in *. simpl in *. rewrite app_nil_r. auto.
    + rewrite Ec, existsb_app. simpl. rewrite Hk. now rewrite orb_true_r.
    + apply andb_true_iff in G as [G _].
      apply showsPanel_user in G as [u Hu']. congruence.
Qed.


(** A message on show has a timer armed behind it. *)
Lemma dispatch_toast (e : Event) (w w0 : World) :
  dispatch e w = Some w0 ->
  (toastMsg (ui w) <> None -> 0 < timers w) ->
  toastMsg (ui w0) <> None -> 0 < timers w0.
Proof.
  intros D IH. destruct e; dispatch_cases D.
  all: simpl in *; intros Hp.
  all: try (apply IH; assumption).
  all: try lia.
  all: try congruence.
  - destruct (afterSetUser_shape (user (ui w))
                (run (set (setUser session_user);; set (setLoading false)) w))
      as [(E & _) | [(_ & E & _ & Et & _) | (u & _ & E & _ & Et & _)]];
      try rewrite Et; rewrite E in *; simpl in *; auto.
  - destruct (afterSetUser_shape (user (ui w)) (run (set (setUser session_user)) w))
      as [(E & _) | [(_ & E & _ & Et & _) | (u & _ & E & _ & Et & _)]];
      try rewrite Et; rewrite E in *; simpl in *; auto.
  - shape_of_runs. rewrite resume_state in Hp.
    rewrite (proj2 (resume_effects c r _)). simpl.
    destruct c, (error r); simpl in *; try lia;
      (assert (0 < timers w) by (apply IH; assumption); lia).
  - shape_of_runs.
    destruct (handleSubmit_shape (ui w) (ui w)) as [(_ & E) | (_ & E & Et & _)].
    + rewrite E in *. simpl in *. assert (0 < timers w) by auto. lia.
    + rewrite E in Hp. simpl in Hp. assert (0 < timers w) by auto. lia.
  - shape_of_runs.
    destruct (handleSubmit_shape (ui w) (ui w)) as [(_ & E) | (_ & E & Et & _)].
    + rewrite E in *. simpl in *. assert (0 < timers w) by auto. lia.
    + rewrite E in Hp. simpl in Hp. assert (0 < timers w) by auto. lia.
Qed.

Lemma click_active_tag (t : string) (w w0 : World) :
  dispatch (ClickActiveTag t) w = Some w0 ->
  In (activeTag (ui w0)) ("All" :: TAG_OPTIONS).
Proof.
  cbn [dispatch].
  destruct (showsMain (ui w) && existsb (String.eqb t) (allTags (ui w))) eqn:G;
    [|discriminate].
  intros D. injection D as <-.
  apply andb_true_iff in G as [_ G]. apply existsb_exists in G as (t' & Ht' & E).
  apply String.eqb_eq in E. subst t'.
  change (In t ("All" :: TAG_OPTIONS)).
  unfold allTags in Ht'. destruct Ht' as [<- | Ht']; [now left | right].
  now apply filter_In in Ht'.
Qed.

(** The active tag is a label of the strip. *)
Lemma dispatch_activeTag (e : Event) (w w0 : World) :
  dispatch e w = Some w0 ->
  In (activeTag (ui w)) ("All" :: TAG_OPTIONS) ->
  In (activeTag (ui w0)) ("All" :: TAG_OPTIONS).
Proof.
  intros D IH.
  destruct e; try (eapply click_active_tag; eassumption); dispatch_cases D.
  all: try exact IH.
  - destruct (afterSetUser_shape (user (ui w))
                (run (set (setUser session_user);; set (setLoading false)) w))
      as [(E & _) | [(_ & E & _) | (u & _ & E & _)]]; rewrite E; exact IH.
  - destruct (afterSetUser_shape (user (ui w)) (run (set (setUser session_user)) w))
      as [(E & _) | [(_ & E & _) | (u & _ & E & _)]]; rewrite E; exact IH.
  - shape_of_runs. rewrite resume_state. destruct c, (error r); exact IH.
  - shape_of_runs.
    destruct (handleSubmit_shape (ui w) (ui w)) as [(_ & E) | (_ & E & _)];
      rewrite E; exact IH.
  - shape_of_runs.
    destruct (handleSubmit_shape (ui w) (ui w)) as [(_ & E) | (_ & E & _)];
      rewrite E; exact IH.
Qed.

(** The channel is subscribed for the signed-in user and for nobody
    else. *)
Lemma dispatch_channel (e : Event) (w w0 : World) :
  dispatch e w = Some w0 ->
  channel w = option_map User.id (user (ui w)) ->
  channel w0 = option_map User.id (user (ui w0)).
Proof.
  intros D IH.
  destruct (dispatch_identity e w w0 D) as [[su [-> | ->]] | (Eu & _ & Ec)];
    [| | now rewrite Eu, Ec].
  - simpl in D. injection D as <-.
    destruct (afterSetUser_shape (user (ui w))
                (run (set (setUser su);; set (setLoading false)) w))
      as [(E & Hb & Hu) | [(Hu & E & _ & _ & Ec) | (u & Hu & E & _ & _ & Ec)]].
    + rewrite E. simpl in *. now rewrite Hu, IH, Hb.
    + rewrite Ec, E, Hu. reflexivity.
    + rewrite Ec, E. simpl in *. now rewrite Hu.
  - simpl in D. injection D as <-.
    destruct (afterSetUser_shape (user (ui w)) (run (set (setUser su)) w))
      as [(E & Hb & Hu) | [(Hu & E & _ & _ & Ec) | (u & Hu & E & _ & _ & Ec)]].
    + rewrite E. simpl in *. now rewrite Hu, IH, Hb.
    + rewrite Ec, E, Hu. reflexivity.
    + rewrite Ec, E. simpl in *. now rewrite Hu.
Qed.

(** Induction over the turns of the event loop, for a property the render
    does not touch. *)
Lemma reachable_invariant (P : World -> Prop) :
  P initialWorld ->
  (forall w e w0, P w -> dispatch e w = Some w0 -> P w0) ->
  (forall w, P w -> P (run filterSortEffect w)) ->
  forall w, reachable w -> P w.
Proof.
  intros Hinit Hdisp Hrender w Hr. induction Hr as [|w w' e Hr IH Hs]; [exact Hinit|].
  apply step_inv in Hs as (w0 & D & ->). eauto.
Qed.

Lemma mirrorWorld_reachable : reachable (mirrorWorld [bm2; bm1]).
Proof.
  assert (Hstep : forall w es w', reachable w -> steps w es = Some w' -> reachable w').
  { intros w es. revert w. induction es as [|e es IH]; intros w w' Hr; simpl.
    - intros E. now injection E as <-.
    - destruct (step w e) as [w1|] eqn:Hs; [|discriminate].
      intros E. apply (IH w1); [|exact E]. now apply (reachable_step w w1 e). }
  apply (Hstep initialWorld
           [GetSessionResolved (Some alice); Settle 0 (succeeded [bm2; bm1])]).
  - constructor.
  - reflexivity.
Qed.

End MoreInvariants.

Section ReachableFacts.
Context {H : Host}.

Lemma steps_reachable (w : World) (es : list Event) (w' : World) :
  reachable w -> steps w es = Some w' -> reachable w'.
Proof.
  revert w. induction es as [|e es IH]; intros w Hr; simpl.
  - intros E. now injection E as <-.
  - destruct (step w e) as [w1|] eqn:Hs; [|discriminate].
    intros E. apply (IH w1); [|exact E]. now apply (reachable_step w w1 e).
Qed.

Lemma reachable_channel (w : World) :
  reachable w -> channel w = option_map User.id (user (ui w)).
Proof.
  apply (reachable_invariant (fun w => channel w = option_map User.id (user (ui w)))).
  - reflexivity.
  - intros w0 e w1 IH D. now apply (dispatch_channel e w0 w1).
  - intros w0 IH. exact IH.
Qed.

End ReachableFacts.

(** X8.  In every world the event loop reaches, the realtime channel is
    subscribed exactly while a user is signed in, with that user's
    identifier as its filter, and the identity ref then holds the same
    identifier. *)
Theorem X8_channel_and_ref_follow_user {H : Host} (w : World) :
  reachable w ->
  channel w = option_map User.id (user (ui w))
  /\ forall u, user (ui w) = Some u -> userIdRef (ui w) = Some (User.id u).
Proof.
  intros Hr. split; [now apply reachable_channel|].
  intros u Hu. now apply (reachable_identity w u Hr Hu).
Qed.

Lemma X8_channel_and_ref_follow_user_witness :
  channel (mirrorWorld [bm2; bm1]) = Some "u-1"
  /\ forall u, user (ui (mirrorWorld [bm2; bm1])) = Some u ->
       userIdRef (ui (mirrorWorld [bm2; bm1])) = Some (User.id u).
Proof.
  apply (X8_channel_and_ref_follow_user (H:=RefHost) (mirrorWorld [bm2; bm1])).
  exact mirrorWorld_reachable.
Defined.

(** X9.  In every world the event loop reaches, a closed panel has an empty
    form out of edit mode: title, URL, note and tag are empty and no record
    is being edited.  So the empty-state button, which opens the panel
    without [resetForm], never shows stale input. *)
Theorem X9_closed_panel_has_empty_form {H : Host} (w : World) :
  reachable w -> panelOpen (ui w) = false -> formIsReset (ui w).
Proof.
  apply (reachable_invariant (fun w => panelOpen (ui w) = false -> formIsReset (ui w))).
  - intros _. repeat split.
  - intros w0 e w1 IH D. now apply (dispatch_form e w0 w1).
  - intros w0 IH. exact IH.
Qed.

Lemma X9_closed_panel_has_empty_form_witness :
  formIsReset (ui (mirrorWorld [bm2; bm1])).
Proof.
  apply (X9_closed_panel_has_empty_form (H:=RefHost) (mirrorWorld [bm2; bm1])).
  - exact mirrorWorld_reachable.
  - reflexivity.
Defined.

(** X10.  In every world the event loop reaches, the submitting flag is
    set only while a call of [handleSubmit] awaits its answer: the spinner
    never stays without a request behind it. *)
Theorem X10_submitting_has_call_in_flight {H : Host} (w : World) :
  reachable w -> submitting (ui w) = true -> submitPending w = true.
Proof.
  apply (reachable_invariant (fun w => submitting (ui w) = true -> submitPending w = true)).
  - discriminate.
  - intros w0 e w1 IH D. now apply (dispatch_submitting e w0 w1).
  - intros w0 IH. exact IH.
Qed.

Lemma X10_submitting_has_call_in_flight_witness :
  exists w, steps (H:=RefHost) initialWorld enterRun = Some w /\ submitPending w = true.
Proof.
  destruct (steps (H:=RefHost) initialWorld enterRun) as [w|] eqn:Hs;
    [|vm_compute in Hs; discriminate Hs].
  exists w. split; [reflexivity|].
  apply (X10_submitting_has_call_in_flight (H:=RefHost) w).
  - apply (steps_reachable initialWorld enterRun w); [constructor | exact Hs].
  - vm_compute in Hs. injection Hs as <-. reflexivity.
Defined.

(** X11.  In every world the event loop reaches, a notification on show has
    a timer armed that will clear it. *)
Theorem X11_toast_has_timer_armed {H : Host} (w : World) :
  reachable w -> toastMsg (ui w) <> None -> 0 < timers w.
Proof.
  apply (reachable_invariant (fun w => toastMsg (ui w) <> None -> 0 < timers w)).
  - intros Hn. now contradiction Hn.
  - intros w0 e w1 IH D. now apply (dispatch_toast e w0 w1).
  - intros w0 IH. exact IH.
Qed.

Lemma X11_toast_has_timer_armed_witness :
  exists w, steps (H:=RefHost) initialWorld deleteRun = Some w /\ 0 < timers w.
Proof.
  destruct (steps (H:=RefHost) initialWorld deleteRun) as [w|] eqn:Hs;
    [|vm_compute in Hs; discriminate Hs].
  exists w. split; [reflexivity|].
  apply (X11_toast_has_timer_armed (H:=RefHost) w).
  - apply (steps_reachable initialWorld deleteRun w); [constructor | exact Hs].
  - vm_compute in Hs. injection Hs as <-. discriminate.
Defined.

(** X12.  In every world the event loop reaches, the active tag is ["All"]
    or one of the six options. *)
Theorem X12_active_tag_is_a_label {H : Host} (w : World) :
  reachable w -> In (activeTag (ui w)) ("All" :: TAG_OPTIONS).
Proof.
  apply (reachable_invariant (fun w => In (activeTag (ui w)) ("All" :: TAG_OPTIONS))).
  - now left.
  - intros w0 e w1 IH D. now apply (dispatch_activeTag e w0 w1).
  - intros w0 IH. exact IH.
Qed.

Lemma X12_active_tag_is_a_label_witness :
  In (activeTag (ui (mirrorWorld [bm2; bm1]))) ("All" :: TAG_OPTIONS).
Proof.
  apply (X12_active_tag_is_a_label (H:=RefHost) (mirrorWorld [bm2; bm1])).
  exact mirrorWorld_reachable.
Defined.

(* ================================================================== *)
(** * Handlers in sequence *)
(* ================================================================== *)

Lemma removeNth_last {A : Type} (l : list A) (x : A) :
  removeNth (List.length l) (l ++ [x]) = l.
Proof. induction l as [|y l IH]; simpl; [reflexivity | now rewrite IH]. Qed.


Section Sequences.
Context {H : Host}.

(** The turn of an edit button: the form holds the record, with an empty
    string for an absent note or tag, and the panel is open in edit mode. *)
Lemma edit_turn (w : World) (bm : Bookmark.t) :
  showsMain (ui w) = true ->
  existsb (Bookmark_eqb bm) (filtered (ui w)) = true ->
  exists w1, step w (ClickEdit bm) = Some w1
    /\ formFields (ui w1)
       = {| Fields.title := Bookmark.title bm; Fields.url := Bookmark.url bm;
            Fields.description := Js.or_default (Bookmark.description bm) "";
            Fields.tag := Js.or_default (Bookmark.tag bm) "" |}
    /\ editId (ui w1) = Some (Bookmark.id bm)
    /\ showsPanel (ui w1) = true
    /\ submitting (ui w1) = submitting (ui w)
    /\ sent w1 = sent w /\ inflight w1 = inflight w.
Proof.
  intros Hmain Hin. eexists. split.
  - apply step_dispatch. cbn [dispatch]. rewrite Hmain, Hin. reflexivity.
  - repeat split. unfold showsPanel. simpl.
    change (showsMain (ui w) && true = true). now rewrite Hmain.
Qed.

(** The turn of the submit button on a valid form in edit mode. *)
Lemma submit_edit_turn (w : World) (i : string) :
  showsPanel (ui w) = true -> invalidForm (ui w) = false ->
  submitting (ui w) = false -> editId (ui w) = Some i -> i <> "" ->
  exists w', step w ClickSubmit = Some w'
    /\ sent w' = sent w ++ [Update (formFields (ui w)) i]
    /\ inflight w' = inflight w ++ [(Update (formFields (ui w)) i, handleSubmit_update_k)].
Proof.
  intros Hshow Hvalid Hsub Hedit Hi. eexists. split.
  - apply step_dispatch. cbn [dispatch]. unfold submitDisabled.
    rewrite Hshow, Hvalid, Hsub. reflexivity.
  - rewrite (run_handleSubmit_valid w Hvalid), Hedit.
    destruct i as [|c i]; [congruence|]. repeat split.
Qed.

End Sequences.

(** X13.  Opening a shown record for editing and submitting at once sends
    one update keyed by the record's identifier, carrying its title and URL
    as they are and an empty string in place of an absent note or tag: the
    edit form turns a missing note or tag into [""] in the backend. *)
Theorem X13_edit_then_submit_writes_record_back
    {H : Host} (w : World) (bm : Bookmark.t) :
  showsMain (ui w) = true ->
  existsb (Bookmark_eqb bm) (filtered (ui w)) = true ->
  submitting (ui w) = false ->
  Js.trim (Bookmark.title bm) <> "" -> Js.trim (Bookmark.url bm) <> "" ->
  Bookmark.id bm <> "" ->
  exists w1 w2,
    step w (ClickEdit bm) = Some w1
    /\ step w1 ClickSubmit = Some w2
    /\ sent w2
       = sent w ++ [Update {| Fields.title := Bookmark.title bm;
                              Fields.url := Bookmark.url bm;
                              Fields.description := Js.or_default (Bookmark.description bm) "";
                              Fields.tag := Js.or_default (Bookmark.tag bm) "" |}
                      (Bookmark.id bm)].
Proof.
  intros Hmain Hin Hsub Ht Hu Hid.
  destruct (edit_turn w bm Hmain Hin) as (w1 & Hs1 & Hf & He & Hshow & Hsub1 & Hsent & _).
  assert (Hvalid : invalidForm (ui w1) = false).
  { apply invalidForm_false.
    assert (Et : title (ui w1) = Bookmark.title bm) by (now injection Hf).
    assert (Eu : url (ui w1) = Bookmark.url bm) by (now injection Hf).
    now rewrite Et, Eu. }
  rewrite Hsub in Hsub1.
  destruct (submit_edit_turn w1 (Bookmark.id bm) Hshow Hvalid Hsub1 He Hid)
    as (w2 & Hs2 & Hsent2 & _).
  exists w1, w2. repeat split; auto. now rewrite Hsent2, Hsent, Hf.
Qed.

(** X13 for record 1 of the reference session, which has no note. *)
Lemma X13_edit_then_submit_writes_record_back_witness :
  exists w1 w2,
    step (H:=RefHost) (mirrorWorld [bm2; bm1]) (ClickEdit bm1) = Some w1
    /\ step (H:=RefHost) w1 ClickSubmit = Some w2
    /\ sent w2
       = [Select "created_at" false;
          Update {| Fields.title := "A"; Fields.url := "https://a.example";
                    Fields.description := ""; Fields.tag := "Dev" |} "1"].
Proof.
  apply (X13_edit_then_submit_writes_record_back (H:=RefHost) (mirrorWorld [bm2; bm1]) bm1);
    try reflexivity; discriminate.
Defined.

Section Retry.
Context {H : Host}.



End Retry.



(** X15.  An authentication event that stores a user other than the one in
    the state, with a non-empty identifier, sets the ref, subscribes the
    channel for that identifier and sends exactly one fetch query; a
    sign-out event removes the channel and sends nothing.  Neither clears
    the mirror, and sign-out leaves the ref as it was: the records of the
    previous session stay in the mirror until a fetch is answered without
    error. *)
Theorem X15_sign_in_and_sign_out_turns
    {H : Host} (w : World) :
  (forall u, user (ui w) <> Some u -> User.id u <> "" ->
     exists w', step w (AuthStateChange (Some u)) = Some w'
       /\ userIdRef (ui w') = Some (User.id u)
       /\ channel w' = Some (User.id u)
       /\ inflight w' = inflight w ++ [(fetchQuery, fetchBookmarks_k)]
       /\ sent w' = sent w ++ [fetchQuery]
       /\ bookmarks (ui w') = bookmarks (ui w))
  /\ (reachable w ->
      exists w', step w (AuthStateChange None) = Some w'
        /\ user (ui w') = None
        /\ channel w' = None
        /\ inflight w' = inflight w
        /\ sent w' = sent w
        /\ userIdRef (ui w') = userIdRef (ui w)
        /\ bookmarks (ui w') = bookmarks (ui w)).
Proof.
  split.
  - intros u _ Hne. eexists. split; [apply step_dispatch; reflexivity|].
    rewrite run_filterSortEffect.
    assert (Es : sent (afterSetUser (user (ui w)) (run (set (setUser (Some u))) w))
                 = sent w ++ [fetchQuery]).
    { unfold afterSetUser, userEffect. simpl. unfold run, seq, set, fetchBookmarks. simpl.
      apply truthy_true in Hne. rewrite Hne. now destruct (user (ui w)). }
    destruct (afterSetUser_shape (user (ui w)) (run (set (setUser (Some u))) w))
      as [(_ & _ & Hu) | [(Hu & _) | (v & Hv & Eui & Ei & _ & Ec)]];
      try discriminate.
    injection Hv as <-. apply truthy_true in Hne. rewrite Hne in Ei.
    cbn [ui inflight channel sent withUi]. rewrite Ei, Ec, Es.
    cbn [userIdRef bookmarks setFiltered]. rewrite Eui. repeat split.
  - intros Hr. pose proof (reachable_channel w Hr) as Hc.
    eexists. split; [apply step_dispatch; reflexivity|].
    rewrite run_filterSortEffect. cbn [ui inflight channel sent withUi].
    cbn [user userIdRef bookmarks setFiltered].
    assert (Es : sent (afterSetUser (user (ui w)) (run (set (setUser None)) w)) = sent w)
      by (unfold afterSetUser, userEffect; simpl; now destruct (user (ui w))).
    destruct (afterSetUser_shape (user (ui w)) (run (set (setUser None)) w))
      as [(E & Hb & _) | [(_ & Eui & Ei & _ & Ec) | (v & Hv & _)]];
      try discriminate.
    + rewrite E. simpl. rewrite Hc, Hb. repeat split.
    + rewrite Es, Ei, Ec, Eui. repeat split.
Qed.

(** X15 on the reference host: the sign-in of alice at mount, and the
    sign-out from her session. *)
Lemma X15_sign_in_and_sign_out_turns_witness :
  (exists w', step (H:=RefHost) initialWorld (AuthStateChange (Some alice)) = Some w'
     /\ userIdRef (ui w') = Some "u-1"
     /\ channel w' = Some "u-1"
     /\ inflight w' = [(fetchQuery, fetchBookmarks_k)]
     /\ sent w' = [fetchQuery]
     /\ bookmarks (ui w') = [])
  /\ (exists w', step (H:=RefHost) (mirrorWorld [bm2; bm1]) (AuthStateChange None) = Some w'
        /\ user (ui w') = None
        /\ channel w' = None
        /\ inflight w' = []
        /\ sent w' = [Select "created_at" false]
        /\ userIdRef (ui w') = Some "u-1"
        /\ bookmarks (ui w') = [bm2; bm1]).
Proof.
  split.
  - apply (proj1 (X15_sign_in_and_sign_out_turns (H:=RefHost) initialWorld) alice);
      discriminate.
  - apply (proj2 (X15_sign_in_and_sign_out_turns (H:=RefHost) (mirrorWorld [bm2; bm1]))).
    exact mirrorWorld_reachable.
Defined.

(* ================================================================== *)
(** * The helpers of the markup *)
(* ================================================================== *)

Lemma dropChars_app (a b : string) : Js.dropChars (String.length a) (a ++ b) = b.
Proof. induction a as [|c a IH]; simpl; [reflexivity | exact IH]. Qed.

Lemma prefix_self_app (a b : string) : String.prefix a (a ++ b) = true.
Proof. apply prefix_app. now exists b. Qed.

Lemma replace_eq (s pattern replacement : string) :
  Js.replace s pattern replacement
  = if String.prefix pattern s
    then (replacement ++ Js.dropChars (String.length pattern) s)%string
    else match s with
         | EmptyString => EmptyString
         | String c s' => String c (Js.replace s' pattern replacement)
         end.
Proof. destruct s; reflexivity. Qed.

(** [replace] rewrites the first occurrence and nothing else. *)
Lemma replace_first (pattern replacement pre post : string) :
  noneBefore pattern (String.length pre) (pre ++ pattern ++ post) ->
  Js.replace (pre ++ pattern ++ post) pattern replacement
  = (pre ++ replacement ++ post)%string.
Proof.
  induction pre as [|c pre IH]; intros Hnone.
  - simpl. now rewrite replace_eq, prefix_self_app, dropChars_app.
  - rewrite replace_eq.
    pose proof (Hnone 0 (Nat.lt_0_succ _)) as H0. cbn [Js.dropChars] in H0.
    rewrite H0. simpl. f_equal.
    apply IH. intros k Hk. apply (Hnone (S k)). simpl. lia.
Qed.

Lemma replace_absent (s pattern replacement : string) :
  Js.includes s pattern = false -> Js.replace s pattern replacement = s.
Proof.
  induction s as [|c s IH]; cbn [Js.includes Js.replace].
  - intros ->. reflexivity.
  - intros E. apply orb_false_iff in E as [-> E]. now rewrite IH.
Qed.

(** X16.  [BookmarkRow] shows the host name of the URL with its first
    ["www."] taken out, wherever in the host name that occurrence is, and
    as it is when there is none; for a URL that does not parse it shows
    nothing, and [getFavicon] then gives [null]. *)
Theorem X16_row_domain_drops_first_www
    {B : Browser} (url : string) :
  (hostname url = None -> rowDomain url = "" /\ getFavicon url = None)
  /\ (forall h, hostname url = Some h -> Js.includes h "www." = false ->
        rowDomain url = h)
  /\ (forall pre post,
        hostname url = Some (pre ++ "www." ++ post)%string ->
        noneBefore "www." (String.length pre) (pre ++ "www." ++ post) ->
        rowDomain url = (pre ++ post)%string).
Proof.
  unfold rowDomain, getFavicon. split; [|split].
  - intros ->. split; reflexivity.
  - intros h -> Hh. now apply replace_absent.
  - intros pre post -> Hnone. now rewrite replace_first.
Qed.

(** X16 on the reference browser: a leading ["www."], and one inside the
    host name. *)
Lemma X16_row_domain_drops_first_www_witness :
  rowDomain (B:=RefBrowser) "https://www.example.com/a" = "example.com"
  /\ rowDomain (B:=RefBrowser) "https://awww.example.com/a" = "aexample.com".
Proof.
  split.
  - apply (proj2 (proj2 (X16_row_domain_drops_first_www (B:=RefBrowser)
                           "https://www.example.com/a")) "" "example.com").
    + reflexivity.
    + intros k Hk. simpl in Hk. lia.
  - apply (proj2 (proj2 (X16_row_domain_drops_first_www (B:=RefBrowser)
                           "https://awww.example.com/a")) "a" "example.com").
    + reflexivity.
    + intros k Hk. simpl in Hk. assert (k = 0) by lia. subst k. reflexivity.
Defined.

(** X17.  [timeAgo] by age [now - t] in milliseconds: under one minute
    (a timestamp in the future included) it says ["just now"]; then
    minutes from 1 to 59, hours from 1 to 23 and days from 1 to 29, each
    the age divided by the unit and rounded down; from 30 days on, and for
    a timestamp that is no date, it gives the locale date. *)
Theorem X17_timeAgo_by_age
    {H : Host} {B : Browser} (now : Z) (dateStr : string) :
  (getTime dateStr = None -> timeAgo now dateStr = toLocaleDateString dateStr)
  /\ (forall t, getTime dateStr = Some t ->
      let age := (now - t)%Z in
      ((age < 60000)%Z -> timeAgo now dateStr = "just now")
      /\ ((60000 <= age < 3600000)%Z ->
          timeAgo now dateStr = (numberToString (age / 60000) ++ "m ago")%string
          /\ (1 <= age / 60000 <= 59)%Z)
      /\ ((3600000 <= age < 86400000)%Z ->
          timeAgo now dateStr = (numberToString (age / 3600000) ++ "h ago")%string
          /\ (1 <= age / 3600000 <= 23)%Z)
      /\ ((86400000 <= age < 2592000000)%Z ->
          timeAgo now dateStr = (numberToString (age / 86400000) ++ "d ago")%string
          /\ (1 <= age / 86400000 <= 29)%Z)
      /\ ((2592000000 <= age)%Z ->
          timeAgo now dateStr = toLocaleDateString dateStr)).
Proof.
  split; [intros E; unfold timeAgo; now rewrite E|].
  intros t E age. unfold timeAgo. rewrite E. fold age.
  assert (Eh : (age / 60000 / 60 = age / 3600000)%Z)
    by (rewrite Z.div_div by lia; reflexivity).
  assert (Ed : (age / 60000 / 60 / 24 = age / 86400000)%Z)
    by (rewrite !Z.div_div by lia; reflexivity).
  rewrite Ed, Eh.
  pose proof (Z.div_mod age 60000 ltac:(lia)) as Dm.
  pose proof (Z.mod_pos_bound age 60000 ltac:(lia)) as Bm.
  pose proof (Z.div_mod age 3600000 ltac:(lia)) as Dh.
  pose proof (Z.mod_pos_bound age 3600000 ltac:(lia)) as Bh.
  pose proof (Z.div_mod age 86400000 ltac:(lia)) as Dd.
  pose proof (Z.mod_pos_bound age 86400000 ltac:(lia)) as Bd.
  split; [|split; [|split; [|split]]]; intros Hage.
  - destruct (Z.ltb_spec (age / 60000) 1); [reflexivity | lia].
  - split; [|lia].
    destruct (Z.ltb_spec (age / 60000) 1); [lia|].
    destruct (Z.ltb_spec (age / 60000) 60); [reflexivity | lia].
  - split; [|lia].
    destruct (Z.ltb_spec (age / 60000) 1); [lia|].
    destruct (Z.ltb_spec (age / 60000) 60); [lia|].
    destruct (Z.ltb_spec (age / 3600000) 24); [reflexivity | lia].
  - split; [|lia].
    destruct (Z.ltb_spec (age / 60000) 1); [lia|].
    destruct (Z.ltb_spec (age / 60000) 60); [lia|].
    destruct (Z.ltb_spec (age / 3600000) 24); [lia|].
    destruct (Z.ltb_spec (age / 86400000) 30); [reflexivity | lia].
  - destruct (Z.ltb_spec (age / 60000) 1); [lia|].
    destruct (Z.ltb_spec (age / 60000) 60); [lia|].
    destruct (Z.ltb_spec (age / 3600000) 24); [lia|].
    destruct (Z.ltb_spec (age / 86400000) 30); [lia | reflexivity].
Qed.

(** X17 for record 1 of the reference session, 90 minutes after its
    creation. *)
Lemma X17_timeAgo_by_age_witness :
  timeAgo (H:=RefHost) (B:=RefBrowser) 1704072600000 "2024-01-01T00:00:00Z" = "1h ago".
Proof.
  destruct (X17_timeAgo_by_age (H:=RefHost) (B:=RefBrowser)
              1704072600000 "2024-01-01T00:00:00Z") as [_ Hvalid].
  pose proof (Hvalid 1704067200000%Z eq_refl) as Hage. cbv zeta in Hage.
  destruct Hage as (_ & _ & Hhours & _).
  apply Hhours. lia.
Defined.

(* ================================================================== *)
(** * What the validation lets through *)
(* ================================================================== *)

Lemma isBlank_trimStart (s : string) : isBlank (Js.trimStart s) = isBlank s.
Proof.
  induction s as [|c s IH]; simpl; [reflexivity|].
  destruct (Js.isWhiteSpace c) eqn:E; simpl; [exact IH | now rewrite E].
Qed.

Lemma trimEnd_empty (s : string) : Js.trimEnd s = "" <-> isBlank s = true.
Proof.
  induction s as [|c s IH]; simpl; [tauto|].
  destruct (Js.trimEnd s) as [|d t] eqn:E.
  - destruct (Js.isWhiteSpace c); simpl; [tauto|]. split; discriminate.
  - split; [discriminate|]. intros Hb. apply andb_true_iff in Hb as [_ Hb].
    apply IH in Hb. discriminate.
Qed.

(** [trim] leaves nothing exactly of the strings made of white space. *)
Lemma trim_empty (s : string) : Js.trim s = "" <-> isBlank s = true.
Proof. unfold Js.trim. now rewrite trimEnd_empty, isBlank_trimStart. Qed.

(** X18.  The validation of [handleSubmit] rejects a form exactly when the
    title or the URL is made of white space only (the empty string
    included): then the handler does nothing.  Every other form passes and
    sets the submitting flag; the URL is not checked to be a URL. *)
Theorem X18_validation_rejects_blank_only (r s : State) :
  (invalidForm r = true <-> isBlank (title r) = true \/ isBlank (url r) = true)
  /\ (isBlank (title r) || isBlank (url r) = true -> handleSubmit r s = (s, []))
  /\ (isBlank (title r) || isBlank (url r) = false ->
      fst (handleSubmit r s) = setSubmitting true s).
Proof.
  assert (Hiff : invalidForm r = true <-> isBlank (title r) = true \/ isBlank (url r) = true)
    by (now rewrite invalidForm_true, !trim_empty).
  split; [exact Hiff|]. split.
  - intros Hb. apply orb_true_iff in Hb. apply handleSubmit_invalid. now apply Hiff.
  - intros Hb. apply orb_false_iff in Hb as [Ht Hu].
    assert (Hvalid : invalidForm r = false).
    { apply not_true_is_false. intros E. apply Hiff in E as [E | E]; congruence. }
    now rewrite (handleSubmit_valid _ _ Hvalid).
Qed.

(** X18 on a title of spaces and tabs, and on a URL that is no URL. *)
Lemma X18_validation_rejects_blank_only_witness :
  (forall s, handleSubmit (ui (formWorld [] "   " "https://a.example")) s = (s, []))
  /\ (forall s, fst (handleSubmit (ui (formWorld [] "A" "not a url")) s)
                = setSubmitting true s).
Proof.
  split; intros s.
  - apply (proj1 (proj2 (X18_validation_rejects_blank_only
                           (ui (formWorld [] "   " "https://a.example")) s))).
    reflexivity.
  - apply (proj2 (proj2 (X18_validation_rejects_blank_only
                           (ui (formWorld [] "A" "not a url")) s))).
    reflexivity.
Defined.

(* ================================================================== *)
(** * Where a new entry of the mirror comes from *)
(* ================================================================== *)

Section NewEntries.
Context {H : Host}.

Lemma postgres_turn (w w' : World) (payload : Payload) :
  step w (Postgres payload) = Some w' ->
  bookmarks (ui w') = applyPayload payload (bookmarks (ui w)).
Proof.
  intros Hs. apply step_inv in Hs as (w0 & D & ->). cbn [dispatch] in D.
  destruct (channel w); [|discriminate]. injection D as <-. reflexivity.
Qed.

Lemma confirm_turn_mirror (w w' : World) :
  step w ClickConfirmDelete = Some w' ->
  exists x, bookmarks (ui w') = filter (fun b => negb (has_id x b)) (bookmarks (ui w)).
Proof.
  intros Hs. apply step_inv in Hs as (w0 & D & ->). cbn [dispatch] in D.
  destruct (deleteTarget (ui w)) as [x|]; [|discriminate].
  destruct (showsDeleteConfirm (ui w)); [|discriminate].
  injection D as <-. exists x. reflexivity.
Qed.

Lemma fetch_cont_turn (w w' : World) (n : nat) (resp : Response) (req : Request) :
  nth_error (inflight w) n = Some (req, fetchBookmarks_k) ->
  step w (Settle n resp) = Some w' ->
  bookmarks (ui w')
  = match error resp with
    | None => match data resp with Some rows => rows | None => [] end
    | Some _ => bookmarks (ui w)
    end.
Proof.
  intros Hn Hs. apply step_inv in Hs as (w0 & D & ->). cbn [dispatch] in D.
  rewrite Hn in D. injection D as <-. cbn [resume]. unfold fetchBookmarks_resume.
  destruct (error resp); reflexivity.
Qed.

(** An identifier new to the mirror comes with an insert event or with the
    rows of a fetch answered without error. *)
Lemma new_id_sources (w w' : World) (e : Event) (i : string) :
  step w e = Some w' ->
  In i (map Bookmark.id (bookmarks (ui w'))) ->
  ~ In i (map Bookmark.id (bookmarks (ui w))) ->
  (exists new, e = Postgres (INSERT new) /\ Bookmark.id new = i)
  \/ (exists n resp req rows,
        e = Settle n resp
        /\ nth_error (inflight w) n = Some (req, fetchBookmarks_k)
        /\ error resp = None /\ data resp = Some rows
        /\ In i (map Bookmark.id rows)).
Proof.
  intros Hs Hin Hout.
  destruct (mirror_writers w w' e Hs)
    as [E | [[payload ->] | [-> | (n & resp & req & -> & Hn)]]].
  - rewrite E in Hin. contradiction.
  - rewrite (postgres_turn w w' payload Hs) in Hin.
    destruct payload as [new | x | new].
    + destruct Hin as [E | Hin]; [|contradiction]. left. eauto.
    + exfalso. apply Hout. simpl in Hin. apply in_map_iff in Hin as (b & E & Hb).
      apply filter_In in Hb as [Hb _]. rewrite <- E. now apply in_map.
    + rewrite update_keeps_ids in Hin. contradiction.
  - destruct (confirm_turn_mirror w w' Hs) as [x E]. rewrite E in Hin.
    exfalso. apply Hout. apply in_map_iff in Hin as (b & Eb & Hb).
    apply filter_In in Hb as [Hb _]. rewrite <- Eb. now apply in_map.
  - rewrite (fetch_cont_turn w w' n resp req Hn Hs) in Hin.
    destruct (error resp) eqn:He; [contradiction|].
    destruct (data resp) as [rows|] eqn:Hd; [|contradiction].
    right. exists n, resp, req, rows. auto.
Qed.

End NewEntries.

(** C6 (as amended).  A create submission, by the button or by Enter,
    leaves the mirror as it is and starts nothing but a write; the turn in
    which its insert request is answered, with or without error, also leaves
    the mirror as it is and sends no request.  An identifier new to the
    mirror enters it only in the turn of an insert event carrying it or in
    the turn of a fetch answered without error whose rows hold it; and a
    fetch answered without error does store its rows.  So the record created
    reaches the mirror with the insert event or with a fetch answer, not with
    the submission.  The only turns that can change the mirror at all are a
    realtime event, the delete confirmation and the answer to a
    [fetchBookmarks] query. *)
Theorem C6_create_leaves_mirror_unchanged
    {H : Host} (w : World) :
  (forall e w', e = ClickSubmit \/ e = KeyDownUrl "Enter" ->
     step w e = Some w' ->
     bookmarks (ui w') = bookmarks (ui w)
     /\ forall call, In call (inflight w') -> In call (inflight w) \/ isWrite (fst call) = true)
  /\ (forall n req resp,
        nth_error (inflight w) n = Some (req, handleSubmit_insert_k) ->
        exists w', step w (Settle n resp) = Some w'
          /\ bookmarks (ui w') = bookmarks (ui w)
          /\ inflight w' = removeNth n (inflight w)
          /\ sent w' = sent w)
  /\ (forall e w' i, step w e = Some w' ->
        In i (map Bookmark.id (bookmarks (ui w'))) ->
        ~ In i (map Bookmark.id (bookmarks (ui w))) ->
        (exists new, e = Postgres (INSERT new) /\ Bookmark.id new = i)
        \/ (exists n resp req rows,
              e = Settle n resp
              /\ nth_error (inflight w) n = Some (req, fetchBookmarks_k)
              /\ error resp = None /\ data resp = Some rows
              /\ In i (map Bookmark.id rows)))
  /\ (forall n rows,
        nth_error (inflight w) n = Some (fetchQuery, fetchBookmarks_k) ->
        exists w', step w (Settle n (succeeded rows)) = Some w'
          /\ bookmarks (ui w') = rows)
  /\ (forall e w', step w e = Some w' ->
        bookmarks (ui w') = bookmarks (ui w)
        \/ (exists payload, e = Postgres payload)
        \/ e = ClickConfirmDelete
        \/ (exists n resp req, e = Settle n resp
              /\ nth_error (inflight w) n = Some (req, fetchBookmarks_k))).
Proof.
  split; [|split; [|split; [|split]]].
  - intros e w' He Hs. destruct (submit_turn w w' e He Hs) as [_ ->]. split.
    + destruct (render_keeps (run (handleSubmit (ui w)) w)) as [-> _].
      apply run_handleSubmit_mirror.
    + destruct (render_keeps (run (handleSubmit (ui w)) w)) as (_ & -> & _).
      unfold run. destruct (invalidForm (ui w)) eqn:E.
      * rewrite (handleSubmit_invalid _ _ E). simpl. auto.
      * rewrite (handleSubmit_valid _ _ E).
        destruct (editId (ui w)) as [[|c i]|], (user (ui w)); simpl; auto;
          intros call Hc; apply in_app_or in Hc as [Hc | [<- | []]]; auto.
  - intros n req resp Hn.
    destruct (insert_answer_turn w n req resp Hn) as (w' & Hs & Hb & Hi & Hsent & _).
    exists w'. auto.
  - intros e w' i. apply new_id_sources.
  - intros n rows Hn.
    destruct (fetch_answer_turn w n (succeeded rows) Hn) as (w' & Hs & Hb & _).
    exists w'. auto.
  - intros e w'. apply mirror_writers.
Qed.

(** C6 in the creation panel of the reference host: Enter on a valid form
    with an empty mirror. *)
Lemma C6_create_leaves_mirror_unchanged_witness :
  exists w',
    step (H:=RefHost) (formWorld [] "A" "https://a.example") (KeyDownUrl "Enter") = Some w'
    /\ bookmarks (ui w') = [].
Proof.
  destruct (step (H:=RefHost) (formWorld [] "A" "https://a.example") (KeyDownUrl "Enter"))
    as [w'|] eqn:Hs; [|vm_compute in Hs; discriminate Hs].
  exists w'. split; [reflexivity|].
  destruct (C6_create_leaves_mirror_unchanged (H:=RefHost)
              (formWorld [] "A" "https://a.example")) as [Hsubmit _].
  destruct (Hsubmit (KeyDownUrl "Enter") w' (or_intror eq_refl) Hs) as [Hb _].
  exact Hb.
Defined.

(** C6 as stated fails: the insert event is not the only way in.  In
    [createRun] no realtime event occurs; the record is created while the
    first fetch is still in flight, the insert is answered without error
    with the mirror still empty, and the fetch answer that follows puts the
    record into the mirror. *)
Lemma C6_fetch_answer_brings_new_entry :
  existsb isPostgres createRun = false
  /\ exists w6 w7,
       steps (H:=RefHost) initialWorld (firstn 6 createRun) = Some w6
       /\ sent w6 = [fetchQuery;
                     Insert {| Fields.title := "A"; Fields.url := "https://a.example";
                               Fields.description := ""; Fields.tag := "" |} "u-1"]
       /\ bookmarks (ui w6) = []
       /\ step (H:=RefHost) w6 (Settle 0 (succeeded [bmCreated])) = Some w7
       /\ steps (H:=RefHost) initialWorld createRun = Some w7
       /\ bookmarks (ui w7) = [bmCreated].
Proof.
  split; [reflexivity|]. eexists. eexists.
  split; [vm_compute; reflexivity|].
  split; [reflexivity|].
  split; [reflexivity|].
  split; [vm_compute; reflexivity|].
  split; [vm_compute; reflexivity|].
  reflexivity.
Qed.
